(** * Completion provider of coc-tsserver: a shallow embedding

    Source: [src/server/features/completionItemProvider.ts].

    The provider talks to the TypeScript server through a client object and
    to a handful of helper modules.  Those collaborators are interfaces
    here (type classes); the provider's own functions are translated one by
    one and keep their names.  Strings are sequences of 8-bit code units
    ([string] of the Standard Library); [undefined] and [null] are both
    [None]; a rejected promise or a thrown exception is [Throw]. *)

From Stdlib Require Import Bool Arith ZArith Lia List String Ascii DecimalString.
Import ListNotations.

Set Implicit Arguments.

Local Open Scope string_scope.
Local Open Scope nat_scope.
Local Open Scope list_scope.

(** ** JavaScript string primitives used by the provider *)

Module Js.

(** White space in the sense of [\s] and of [String.prototype.trim],
    restricted to code units below 256: TAB, LF, VT, FF, CR, SP, NBSP. *)
Definition is_space (c : ascii) : bool :=
  let n := nat_of_ascii c in
  (9 <=? n) && (n <=? 13) || (n =? 32) || (n =? 160).

(** Truthiness of a possibly absent string: absent and [''] are falsy. *)
Definition truthy (s : option string) : bool :=
  match s with
  | Some s => negb (String.eqb s "")
  | None => false
  end.

(** [s.slice(0, n)] for a non-negative [n]. *)
Definition slice_to (n : nat) (s : string) : string := substring 0 n s.

(** [s.slice(n)] for a non-negative [n]. *)
Definition slice_from (n : nat) (s : string) : string :=
  substring n (String.length s - n) s.

Fixpoint trimStart (s : string) : string :=
  match s with
  | String c s' => if is_space c then trimStart s' else s
  | EmptyString => EmptyString
  end.

Definition rev_string (s : string) : string :=
  string_of_list_ascii (rev (list_ascii_of_string s)).

Definition trimEnd (s : string) : string :=
  rev_string (trimStart (rev_string s)).

(** [s.trim()] *)
Definition trim (s : string) : string := trimEnd (trimStart s).

(** [parts.join(sep)] *)
Fixpoint join (sep : string) (parts : list string) : string :=
  match parts with
  | [] => ""
  | [p] => p
  | p :: rest => (p ++ sep ++ join sep rest)%string
  end.

Definition to_lower (c : ascii) : ascii :=
  let n := nat_of_ascii c in
  if (65 <=? n) && (n <=? 90) then ascii_of_nat (n + 32) else c.

End Js.

(** ** Regular expressions

    The provider only uses regular expressions built from character
    classes, concatenation, [?], [*], [+] and the anchors [^] and [$].
    They are kept as data and run by derivatives; [matches] is the
    language they denote. *)

Module Regex.

Inductive regex : Type :=
| Void : regex
| Eps : regex
| Chr (p : ascii -> bool) : regex
| Cat (r1 r2 : regex) : regex
| Alt (r1 r2 : regex) : regex
| Star (r : regex) : regex.

(** [r?] and [r+] *)
Definition Opt (r : regex) : regex := Alt r Eps.
Definition Plus (r : regex) : regex := Cat r (Star r).

(** A literal character, and a literal character under the [i] flag. *)
Definition lit (c : ascii) : regex := Chr (Ascii.eqb c).
Definition lit_i (c : ascii) : regex :=
  Chr (fun x => Ascii.eqb (Js.to_lower x) (Js.to_lower c)).

(** [\s] *)
Definition space : regex := Chr Js.is_space.

(** A literal word under the [i] flag. *)
Fixpoint word_i (w : string) : regex :=
  match w with
  | EmptyString => Eps
  | String c w' => Cat (lit_i c) (word_i w')
  end.

Fixpoint nullable (r : regex) : bool :=
  match r with
  | Void => false
  | Eps => true
  | Chr _ => false
  | Cat r1 r2 => nullable r1 && nullable r2
  | Alt r1 r2 => nullable r1 || nullable r2
  | Star _ => true
  end.

Fixpoint deriv (c : ascii) (r : regex) : regex :=
  match r with
  | Void => Void
  | Eps => Void
  | Chr p => if p c then Eps else Void
  | Cat r1 r2 =>
      if nullable r1
      then Alt (Cat (deriv c r1) r2) (deriv c r2)
      else Cat (deriv c r1) r2
  | Alt r1 r2 => Alt (deriv c r1) (deriv c r2)
  | Star r1 => Cat (deriv c r1) (Star r1)
  end.

(** The whole input is a word of [r]. *)
Fixpoint accepts (r : regex) (s : list ascii) : bool :=
  match s with
  | [] => nullable r
  | c :: s' => accepts (deriv c r) s'
  end.

(** Some prefix of the input is a word of [r]: the pattern [^r]. *)
Fixpoint accepts_prefix (r : regex) (s : list ascii) : bool :=
  nullable r ||
  match s with
  | [] => false
  | c :: s' => accepts_prefix (deriv c r) s'
  end.

(** Some factor of the input is a word of [r]: the pattern [r]. *)
Fixpoint accepts_factor (r : regex) (s : list ascii) : bool :=
  accepts_prefix r s ||
  match s with
  | [] => false
  | _ :: s' => accepts_factor r s'
  end.

(** The pattern [r$]: the match starts at the leftmost index whose
    suffix is a word of [r]; the result is the matched text. *)
Fixpoint leftmost_suffix (r : regex) (s : list ascii) : option (list ascii) :=
  if accepts r s then Some s
  else match s with
       | [] => None
       | _ :: s' => leftmost_suffix r s'
       end.

(** [s.match(/r$/)] for a body [r] without capture groups: the match
    array holds one element, the matched text. *)
Definition match_suffix (r : regex) (s : string) : option (list string) :=
  match leftmost_suffix r (list_ascii_of_string s) with
  | Some m => Some [string_of_list_ascii m]
  | None => None
  end.

(** A pattern is a body with its anchors. *)
Record pattern : Type := Pattern {
  anchor_start : bool;
  body : regex;
  anchor_end : bool
}.

(** [re.test(s)], and the truthiness of [s.match(re)]. *)
Definition test (re : pattern) (s : string) : bool :=
  let l := list_ascii_of_string s in
  match anchor_start re, anchor_end re with
  | true, true => accepts (body re) l
  | true, false => accepts_prefix (body re) l
  | false, true =>
      match leftmost_suffix (body re) l with Some _ => true | None => false end
  | false, false => accepts_factor (body re) l
  end.

(** The language of a regular expression. *)
Inductive matches : regex -> list ascii -> Prop :=
| MEps : matches Eps []
| MChr (p : ascii -> bool) c : p c = true -> matches (Chr p) [c]
| MCat r1 r2 s1 s2 :
    matches r1 s1 -> matches r2 s2 -> matches (Cat r1 r2) (s1 ++ s2)
| MAltL r1 r2 s : matches r1 s -> matches (Alt r1 r2) s
| MAltR r1 r2 s : matches r2 s -> matches (Alt r1 r2) s
| MStarNil r : matches (Star r) []
| MStarCons r s1 s2 :
    matches r s1 -> matches (Star r) s2 -> matches (Star r) (s1 ++ s2).

(** [refines r r']: same shape, every character class of [r] included in
    the one of [r'] at the same place. *)
Inductive refines : regex -> regex -> Prop :=
| RVoid : refines Void Void
| REps : refines Eps Eps
| RChr (p q : ascii -> bool) :
    (forall c, p c = true -> q c = true) -> refines (Chr p) (Chr q)
| RCat r1 r2 r1' r2' :
    refines r1 r1' -> refines r2 r2' -> refines (Cat r1 r2) (Cat r1' r2')
| RAlt r1 r2 r1' r2' :
    refines r1 r1' -> refines r2 r2' -> refines (Alt r1 r2) (Alt r1' r2')
| RStar r r' : refines r r' -> refines (Star r) (Star r').

End Regex.

(** ** Results of calls that may throw *)

Inductive JsError : Type :=
| TypeError : JsError
| Error (message : string) : JsError.

Inductive Outcome (A : Type) : Type :=
| Ok (a : A) : Outcome A
| Throw (e : JsError) : Outcome A.

Arguments Ok {A} a.
Arguments Throw {A} e.

Definition bind {A B : Type} (m : Outcome A) (k : A -> Outcome B) : Outcome B :=
  match m with
  | Ok a => k a
  | Throw e => Throw e
  end.

Notation "'let*' x ':=' m 'in' k" := (bind m (fun x => k))
  (at level 10, x name, m at level 100, k at level 200).

(** [xs.map(f)] where [f] may throw: the first exception wins. *)
Fixpoint mapM {A B : Type} (f : A -> Outcome B) (xs : list A) : Outcome (list B) :=
  match xs with
  | [] => Ok []
  | x :: xs' =>
      let* y := f x in
      let* ys := mapM f xs' in
      Ok (y :: ys)
  end.

(** ** Capability versions

    Modelled from the spec: [utils/api] is not under src/.  A version is a
    triple compared as semver does; a threshold [vXYZ] is version X.Y.Z;
    [lt] is the negation of [gte]. *)

Module API.

Record t : Type := mk { major : nat; minor : nat; patch : nat }.

Definition gte (a b : t) : bool :=
  (major b <? major a)
  || (major a =? major b)
     && ((minor b <? minor a)
         || (minor a =? minor b) && (patch b <=? patch a)).

Definition lt (a b : t) : bool := negb (gte a b).

Definition v290 : t := mk 2 9 0.
Definition v300 : t := mk 3 0 0.
Definition v310 : t := mk 3 1 0.
Definition v320 : t := mk 3 2 0.
Definition v381 : t := mk 3 8 1.
Definition v430 : t := mk 4 3 0.

End API.

(** ** Protocol of the TypeScript server (the part the provider reads) *)

Module Proto.

Record SymbolDisplayPart : Type := {
  text : string;
  part_kind : string
}.

Record JSDocTagInfo : Type := {
  tag_name : string;
  tag_text : option string
}.

Record Location : Type := { line : nat; offset : nat }.

Record CodeEdit : Type := {
  start : Location;
  end_ : Location;
  newText : string
}.

Record FileCodeEdits : Type := {
  fileName : string;
  textChanges : list CodeEdit
}.

(** [commands] is optional in the protocol; [changes] is read under a
    guard by the provider, so it can be absent too. *)
Record CodeAction : Type := {
  description : string;
  changes : option (list FileCodeEdits);
  commands : option (list string)
}.

Record CompletionEntry : Type := {
  name : string;
  kind : string;
  source : option string;
  hasAction : option bool;
  insertText : option string;
  data : option string
}.

Record CompletionEntryDetails : Type := {
  displayParts : list SymbolDisplayPart;
  documentation : option (list SymbolDisplayPart);
  tags : option (list JSDocTagInfo);
  codeActions : option (list CodeAction);
  detail_source : option (list SymbolDisplayPart)
}.

Record CompletionInfo : Type := {
  isNewIdentifierLocation : bool;
  isMemberCompletion : bool;
  isIncomplete : option bool;
  entries : list CompletionEntry
}.

Record QuickInfoResponseBody : Type := { quickinfo_kind : string }.

Record FileLocationRequestArgs : Type := {
  file : string;
  args_line : nat;
  args_offset : nat
}.

Record CompletionsRequestArgs : Type := {
  location : FileLocationRequestArgs;
  includeExternalModuleExports : bool;
  includeInsertTextCompletions : bool;
  triggerCharacter : option string
}.

(** An entry of [entryNames]: a bare name, or [{ name, source, data }]. *)
Inductive EntryName : Type :=
| BareName (n : string) : EntryName
| EntryIdentifier (n : string) (src : string) (d : option string) : EntryName.

Record CompletionDetailsRequestArgs : Type := {
  details_location : FileLocationRequestArgs;
  entryNames : list EntryName
}.

End Proto.

(** Modelled from the spec: [protocol.const] is not under src/; the kind
    tags are the ones the server sends. *)
Module PConst.
Module Kind.
Definition warning : string := "warning".
Definition directory : string := "directory".
Definition script : string := "script".
Definition externalModuleName : string := "external module name".
End Kind.
End PConst.

(** The answer of the server to one request. *)
Module ServerResponse.

Record Metadata : Type := { metadata_isIncomplete : option bool }.

Inductive t (B : Type) : Type :=
| Response (body : option B) (metadata : option Metadata) : t B
| Cancelled (reason : string) : t B
| NoContent : t B.

Arguments Response {B} body metadata.
Arguments Cancelled {B} reason.
Arguments NoContent {B}.

End ServerResponse.

(** ** Editor-side types *)

Record Position : Type := { line : nat; character : nat }.

Record Range : Type := { start : Position; end_ : Position }.

Record TextEdit : Type := { range : Range; newText : string }.

Inductive MarkupKind : Type := PlainText | Markdown.

Record MarkupContent : Type := { kind : MarkupKind; value : string }.

Module InsertTextFormat.
Inductive t : Type := PlainText | Snippet.
Definition eqb (a b : t) : bool :=
  match a, b with
  | PlainText, PlainText | Snippet, Snippet => true
  | _, _ => false
  end.
End InsertTextFormat.

(** A command; the only commands the provider builds carry one argument,
    a list of code actions. *)
Record Command : Type := {
  title : string;
  command : string;
  arguments : list (list Proto.CodeAction)
}.

(** The correlation data [convertCompletionEntry] stores in [item.data];
    an absent [isSnippet] is [false]. *)
Record ItemData : Type := {
  uri : string;
  position : Position;
  source : option string;
  name : string;
  data : option string;
  isSnippet : bool
}.

Module CompletionItem.

Record t : Type := {
  label : string;
  detail : option string;
  documentation : option MarkupContent;
  insertText : option string;
  insertTextFormat : option InsertTextFormat.t;
  command : option Command;
  additionalTextEdits : option (list TextEdit);
  data : option ItemData
}.

Definition set_detail (v : option string) (i : t) : t :=
  {| label := label i; detail := v; documentation := documentation i;
     insertText := insertText i; insertTextFormat := insertTextFormat i;
     command := command i; additionalTextEdits := additionalTextEdits i;
     data := data i |}.

Definition set_documentation (v : option MarkupContent) (i : t) : t :=
  {| label := label i; detail := detail i; documentation := v;
     insertText := insertText i; insertTextFormat := insertTextFormat i;
     command := command i; additionalTextEdits := additionalTextEdits i;
     data := data i |}.

Definition set_insertText (v : option string) (i : t) : t :=
  {| label := label i; detail := detail i; documentation := documentation i;
     insertText := v; insertTextFormat := insertTextFormat i;
     command := command i; additionalTextEdits := additionalTextEdits i;
     data := data i |}.

Definition set_command (v : option Command) (i : t) : t :=
  {| label := label i; detail := detail i; documentation := documentation i;
     insertText := insertText i; insertTextFormat := insertTextFormat i;
     command := v; additionalTextEdits := additionalTextEdits i;
     data := data i |}.

Definition set_additionalTextEdits (v : option (list TextEdit)) (i : t) : t :=
  {| label := label i; detail := detail i; documentation := documentation i;
     insertText := insertText i; insertTextFormat := insertTextFormat i;
     command := command i; additionalTextEdits := v;
     data := data i |}.

Definition set_data (v : option ItemData) (i : t) : t :=
  {| label := label i; detail := detail i; documentation := documentation i;
     insertText := insertText i; insertTextFormat := insertTextFormat i;
     command := command i; additionalTextEdits := additionalTextEdits i;
     data := v |}.

End CompletionItem.

Record CompletionList : Type := {
  isIncomplete : bool;
  items : list CompletionItem.t
}.

(** [item.data.isSnippet = true] *)
Definition mark_isSnippet (d : ItemData) : ItemData :=
  {| uri := uri d; position := position d; source := source d;
     name := name d; data := data d; isSnippet := true |}.

(** The document as the provider uses it: its uri, its lines and
    [getText(range)], which belongs to the editor. *)
Record LinesTextDocument : Type := {
  doc_uri : string;
  lines : list string;
  getText : Range -> string
}.

(** coc's syntax hint, and the completion context it comes in. *)
Record CompleteOption : Type := { synname : option string }.

Record CompletionContext : Type := {
  triggerCharacter : option string;
  option_ : CompleteOption
}.

(** The accessor token before the cursor, [utils/completionItem]. *)
Record DotAccessorContext : Type := {
  dot_range : Range;
  dot_text : string
}.

(** The last argument of [convertCompletionEntry]. *)
Record CompletionConvertContext : Type := {
  ctx_line : option string;
  ctx_triggerCharacter : option string;
  ctx_isNewIdentifierLocation : bool;
  ctx_isMemberCompletion : bool;
  enableCallCompletions : bool;
  isInValidCommitCharacterContext_ : bool;
  dotAccessorContext : option DotAccessorContext
}.

(** The result of [getParameterListParts]. *)
Record ParameterListParts : Type := {
  parts : list Proto.SymbolDisplayPart;
  hasOptionalParameters : bool
}.

(** ** Collaborators

    Everything the provider imports and calls but does not define. *)

(** [ITypeScriptServiceClient]: [execute] is split by request name;
    [interruptGetErr(f)] hands back what [f] yields. *)
Class ITypeScriptServiceClient : Type := {
  toPath : string -> option string;
  apiVersion : API.t;
  execute_completionInfo :
    Proto.CompletionsRequestArgs ->
    Outcome (ServerResponse.t Proto.CompletionInfo);
  execute_completions :
    Proto.CompletionsRequestArgs ->
    Outcome (ServerResponse.t (list Proto.CompletionEntry));
  execute_completionEntryDetails :
    Proto.CompletionDetailsRequestArgs ->
    Outcome (ServerResponse.t (list (option Proto.CompletionEntryDetails)));
  execute_quickinfo :
    Proto.FileLocationRequestArgs ->
    Outcome (ServerResponse.t Proto.QuickInfoResponseBody)
}.

(** [workspace.getConfiguration(section, resource).get(key)]; [None] when
    the key is not set. *)
Class Workspace : Type := {
  getConfiguration : string -> string -> string -> option bool
}.

Class TypingsStatus : Type := {
  isAcquiringTypings : bool
}.

Class FileConfigurationManager : Type := {
  ensureConfigurationForDocument : LinesTextDocument -> Outcome unit
}.

(** [utils/previewer] *)
Class Previewer : Type := {
  plainWithLinks : option (list Proto.SymbolDisplayPart) -> string;
  tagsMarkdownPreview : option (list Proto.JSDocTagInfo) -> string
}.

(** [utils/typeConverters] *)
Class TypeConverters : Type := {
  toFileLocationRequestArgs : string -> Position -> Proto.FileLocationRequestArgs;
  fromCodeEdit : Proto.CodeEdit -> TextEdit
}.

(** [utils/completionItem] *)
Class CompletionItemUtils : Type := {
  convertCompletionEntry :
    Proto.CompletionEntry -> string -> Position -> CompletionConvertContext ->
    CompletionItem.t;
  getParameterListParts : list Proto.SymbolDisplayPart -> ParameterListParts
}.

(** [utils/SnippetString]: a builder; [appendTabstop] and
    [appendPlaceholder] take the tab-stop number when the caller gives
    one. *)
Class SnippetString (S : Type) : Type := {
  new_SnippetString : S;
  appendText : string -> S -> S;
  appendTabstop : option nat -> S -> S;
  appendPlaceholder : string -> S -> S;
  snippet_value : S -> string
}.

(** ** Configuration snapshot *)

Module CompletionConfiguration.

Record t : Type := {
  useCodeSnippetsOnMethodSuggest : bool;
  nameSuggestions : bool;
  pathSuggestions : bool;
  autoImportSuggestions : bool;
  importStatementSuggestions : bool
}.

Definition key_useCodeSnippetsOnMethodSuggest : string := "suggest.completeFunctionCalls".
Definition key_nameSuggestions : string := "suggest.names".
Definition key_pathSuggestions : string := "suggest.paths".
Definition key_autoImportSuggestions : string := "suggest.autoImports".
Definition key_importStatementSuggestions : string := "suggest.importStatements".

(** [config.get<boolean>(key, dflt)] *)
Definition get (v : option bool) (dflt : bool) : bool :=
  match v with Some b => b | None => dflt end.

Definition getConfigurationForResource `{Workspace}
    (modeId resource : string) : t :=
  let config := getConfiguration modeId resource in
  {| useCodeSnippetsOnMethodSuggest :=
       get (config key_useCodeSnippetsOnMethodSuggest) false;
     pathSuggestions := get (config key_pathSuggestions) true;
     autoImportSuggestions := get (config key_autoImportSuggestions) true;
     nameSuggestions := get (config key_nameSuggestions) true;
     importStatementSuggestions :=
       get (config key_importStatementSuggestions) true |}.

End CompletionConfiguration.

(** ** The regular expressions of the provider *)

Module Patterns.
Import Regex.

(** [/^\s*\*[ ]?@/] *)
Definition jsdocLine : pattern :=
  Pattern true
    (Cat (Star space) (Cat (lit "*") (Cat (Opt (lit " ")) (lit "@"))))
    false.

(** [/\/\*\*+[ ]?@/] *)
Definition jsdocOpen : pattern :=
  Pattern false
    (Cat (lit "/") (Cat (lit "*") (Cat (Plus (lit "*"))
      (Cat (Opt (lit " ")) (lit "@")))))
    false.

(** [/string/i] *)
Definition stringSyntax : pattern := Pattern false (word_i "string") false.

(** The body of [/\??\.\s*$/] *)
Definition dotAccessor : regex :=
  Cat (Opt (lit "?")) (Cat (lit ".") (Star space)).

(** [[a-z_$0-9]] under the [i] flag *)
Definition identifierChar (c : ascii) : bool :=
  let n := nat_of_ascii (Js.to_lower c) in
  (97 <=? n) && (n <=? 122) || (n =? 95) || (n =? 36)
  || (48 <=? n) && (n <=? 57).

(** [/^[a-z_$0-9]*\s*\(/gi] *)
Definition callStart : pattern :=
  Pattern true
    (Cat (Star (Chr identifierChar)) (Cat (Star space) (lit "(")))
    false.

(** [/(\s|^)\.$/ig] is the union of [/\s\.$/] and [/^\.$/]. *)
Definition spaceDot : pattern := Pattern false (Cat space (lit ".")) true.
Definition loneDot : pattern := Pattern true (lit ".") true.

(** The patterns as the specification words them, with [\s?] where the
    code has [[ ]?]. *)
Definition jsdocLine_spec : pattern :=
  Pattern true
    (Cat (Star space) (Cat (lit "*") (Cat (Opt space) (lit "@"))))
    false.

Definition jsdocOpen_spec : pattern :=
  Pattern false
    (Cat (lit "/") (Cat (lit "*") (Cat (Plus (lit "*"))
      (Cat (Opt space) (lit "@")))))
    false.

End Patterns.

(** ** The provider *)

Module ApplyCompletionCodeActionCommand.
Definition ID : string := "_typescript.applyCompletionCodeAction".
End ApplyCompletionCodeActionCommand.

(** The string made of one double quote. *)
Definition doubleQuote : string := String (ascii_of_nat 34) EmptyString.

(** [triggerCharacter === c] *)
Definition is_char (t : option string) (c : string) : bool :=
  match t with
  | Some s => String.eqb s c
  | None => false
  end.

(** Loose equality of two possibly absent strings. *)
Definition loose_eq (a b : option string) : bool :=
  match a, b with
  | Some x, Some y => String.eqb x y
  | None, None => true
  | _, _ => false
  end.

Definition shouldExcludeCompletionEntry
    (element : Proto.CompletionEntry)
    (completionConfiguration : CompletionConfiguration.t) : bool :=
  (negb (CompletionConfiguration.nameSuggestions completionConfiguration)
   && String.eqb (Proto.kind element) PConst.Kind.warning)
  || (negb (CompletionConfiguration.pathSuggestions completionConfiguration)
      && (String.eqb (Proto.kind element) PConst.Kind.directory
          || String.eqb (Proto.kind element) PConst.Kind.script
          || String.eqb (Proto.kind element) PConst.Kind.externalModuleName))
  || (negb (CompletionConfiguration.autoImportSuggestions completionConfiguration)
      && match Proto.hasAction element with Some b => b | None => false end).

Section Snippets.
Context {S : Type} `{SnippetString S}.

(** The loop of [appendJoinedPlaceholders]: a placeholder per part, the
    joiner after each part but the last. *)
Fixpoint appendJoinedPlaceholders
    (snippet : S) (parts : list Proto.SymbolDisplayPart) (joiner : string) : S :=
  match parts with
  | [] => snippet
  | paramterPart :: rest =>
      let snippet1 := appendPlaceholder (Proto.text paramterPart) snippet in
      let snippet2 :=
        match rest with
        | [] => snippet1
        | _ :: _ => appendText joiner snippet1
        end in
      appendJoinedPlaceholders snippet2 rest joiner
  end.

Context `{CompletionItemUtils}.

(** [item.insertText ?? item.label] *)
Definition insertTextOrLabel (item : CompletionItem.t) : string :=
  match CompletionItem.insertText item with
  | Some s => s
  | None => CompletionItem.label item
  end.

Definition functionCallSnippet
    (item : CompletionItem.t) (detail : Proto.CompletionEntryDetails) : S :=
  let parameterListParts := getParameterListParts (Proto.displayParts detail) in
  let snippet := new_SnippetString in
  let snippet := appendText (insertTextOrLabel item ++ "(")%string snippet in
  let snippet := appendJoinedPlaceholders snippet (parts parameterListParts) ", " in
  let snippet :=
    if hasOptionalParameters parameterListParts
    then appendTabstop None snippet
    else snippet in
  let snippet := appendText ")" snippet in
  appendTabstop (Some 0) snippet.

Definition createSnippetOfFunctionCall
    (item : CompletionItem.t) (detail : Proto.CompletionEntryDetails)
    : CompletionItem.t :=
  CompletionItem.set_insertText
    (Some (snippet_value (functionCallSnippet item detail))) item.

End Snippets.

Section Documentation.
Context `{Previewer}.

(** [s && s.trim() != ''] *)
Definition keeps_part (s : string) : bool :=
  negb (String.eqb s "") && negb (String.eqb (Js.trim s) "").

Definition getDocumentation (detail : Proto.CompletionEntryDetails)
    : option MarkupContent :=
  let documentation := "" in
  let documentation :=
    match Proto.detail_source detail with
    | Some src =>
        let importPath := ("'" ++ plainWithLinks (Some src) ++ "'")%string in
        let autoImportLabel := ("Auto import from " ++ importPath)%string in
        (documentation ++ autoImportLabel ++ String "010" "")%string
    | None => documentation
    end in
  let parts :=
    [ plainWithLinks (Proto.documentation detail);
      tagsMarkdownPreview (Proto.tags detail) ] in
  let parts := filter keeps_part parts in
  let documentation :=
    (documentation ++ Js.join (String "010" (String "010" "")) parts)%string in
  if negb (String.length documentation =? 0)
  then Some {| kind := Markdown; value := documentation |}
  else None.

End Documentation.

Section CodeActions.
Context `{TypeConverters}.

Record CodeActionsResult : Type := {
  result_command : option Command;
  result_additionalTextEdits : option (list TextEdit)
}.

(** The scanning loop keeps two variables: the edits collected for the
    current file, and [hasRemainingCommandsOrEdits]. *)
Definition scan_change (filepath : string)
    (st : list TextEdit * bool) (change : Proto.FileCodeEdits)
    : list TextEdit * bool :=
  let '(additionalTextEdits, hasRemainingCommandsOrEdits) := st in
  if String.eqb (Proto.fileName change) filepath
  then (additionalTextEdits ++ map fromCodeEdit (Proto.textChanges change),
        hasRemainingCommandsOrEdits)
  else (additionalTextEdits, true).

Definition scan_action (filepath : string)
    (st : list TextEdit * bool) (tsAction : Proto.CodeAction)
    : list TextEdit * bool :=
  let '(additionalTextEdits, hasRemainingCommandsOrEdits) := st in
  let hasRemainingCommandsOrEdits :=
    match Proto.commands tsAction with
    | Some _ => true
    | None => hasRemainingCommandsOrEdits
    end in
  match Proto.changes tsAction with
  | Some changes =>
      fold_left (scan_change filepath) changes
        (additionalTextEdits, hasRemainingCommandsOrEdits)
  | None => (additionalTextEdits, hasRemainingCommandsOrEdits)
  end.

(** The callback of [detail.codeActions.map]: [x.changes.filter] throws
    when [x.changes] is absent. *)
Definition strip_action (filepath : string) (x : Proto.CodeAction)
    : Outcome Proto.CodeAction :=
  match Proto.changes x with
  | Some changes =>
      Ok {| Proto.commands := Proto.commands x;
            Proto.description := Proto.description x;
            Proto.changes :=
              Some (filter (fun x => negb (String.eqb (Proto.fileName x) filepath))
                      changes) |}
  | None => Throw TypeError
  end.

Definition getCodeActions
    (detail : Proto.CompletionEntryDetails) (filepath : string)
    : Outcome CodeActionsResult :=
  match Proto.codeActions detail with
  | None | Some [] =>
      Ok {| result_command := None; result_additionalTextEdits := None |}
  | Some codeActions =>
      let '(additionalTextEdits, hasRemainingCommandsOrEdits) :=
        fold_left (scan_action filepath) codeActions ([], false) in
      let* command :=
        if hasRemainingCommandsOrEdits
        then
          let* stripped := mapM (strip_action filepath) codeActions in
          Ok (Some {| title := "";
                      command := ApplyCompletionCodeActionCommand.ID;
                      arguments := [stripped] |})
        else Ok None
      in
      Ok {| result_command := command;
            result_additionalTextEdits :=
              match additionalTextEdits with
              | [] => None
              | _ :: _ => Some additionalTextEdits
              end |}
  end.

End CodeActions.

Section Resolve.
Context `{ITypeScriptServiceClient} `{Previewer} `{TypeConverters}
        `{CompletionItemUtils} {S : Type} `{SnippetString S}.

(** [this.currentLine]: the line seen by the last list request. *)
Variable currentLine : option string.

Definition is_variable_kind (k : string) : bool :=
  String.eqb k "var" || String.eqb k "let" || String.eqb k "const"
  || String.eqb k "alias".

Definition isValidFunctionCompletionContext
    (filepath : string) (position : Position) : Outcome bool :=
  let rejected_by_quickinfo :=
    match execute_quickinfo (toFileLocationRequestArgs filepath position) with
    | Ok (ServerResponse.Response (Some body) _) =>
        is_variable_kind (Proto.quickinfo_kind body)
    | _ => false
    end in
  if rejected_by_quickinfo then Ok false
  else
    match currentLine with
    | Some l =>
        let after := Js.slice_from (character position) l in
        Ok (negb (Regex.test Patterns.callStart after))
    | None => Throw TypeError
    end.

(** What a call of [resolveCompletionItem] leaves behind: the value the
    promise resolves to, or the exception it rejects with together with
    the state the item object was left in. *)
Inductive Resolution : Type :=
| Resolved (v : option CompletionItem.t) : Resolution
| Rejected (e : JsError) (st : CompletionItem.t) : Resolution.

Definition entryNameOf (d : ItemData) : Proto.EntryName :=
  match source d with
  | Some src =>
      if negb (String.eqb src "")
      then Proto.EntryIdentifier (name d) src (data d)
      else Proto.BareName (name d)
  | None => Proto.BareName (name d)
  end.

(** The request [resolveCompletionItem] sends for an item: [args]. *)
Definition detailsArgs (filepath : string) (d : ItemData)
    : Proto.CompletionDetailsRequestArgs :=
  {| Proto.details_location := toFileLocationRequestArgs filepath (position d);
     Proto.entryNames := [entryNameOf d] |}.

(** The part of [resolveCompletionItem] after the response was checked. *)
Definition enrich
    (item : CompletionItem.t) (d : ItemData) (filepath : string)
    (previousInsert : option string) (detail : Proto.CompletionEntryDetails)
    : Resolution :=
  let item :=
    if negb (Js.truthy (CompletionItem.detail item))
       && negb (List.length (Proto.displayParts detail) =? 0)
    then CompletionItem.set_detail
           (Some (plainWithLinks (Some (Proto.displayParts detail)))) item
    else item in
  let item := CompletionItem.set_documentation (getDocumentation detail) item in
  match getCodeActions detail filepath with
  | Throw e => Rejected e item
  | Ok actions =>
      let item :=
        match result_command actions with
        | Some c => CompletionItem.set_command (Some c) item
        | None => item
        end in
      let item :=
        CompletionItem.set_additionalTextEdits
          (result_additionalTextEdits actions) item in
      if negb (isSnippet d)
         && match CompletionItem.insertTextFormat item with
            | Some f => InsertTextFormat.eqb f InsertTextFormat.Snippet
            | None => false
            end
      then
        let item := CompletionItem.set_data (Some (mark_isSnippet d)) item in
        match isValidFunctionCompletionContext filepath (position d) with
        | Throw e => Rejected e item
        | Ok shouldCompleteFunction =>
            if shouldCompleteFunction
               && loose_eq previousInsert (CompletionItem.insertText item)
            then Resolved (Some (createSnippetOfFunctionCall item detail))
            else Resolved (Some item)
        end
      else Resolved (Some item)
  end.

(** The three ways in which [enrich] stays out of the snippet branch. *)
Definition skips_synthesis
    (item : CompletionItem.t) (d : ItemData) (filepath : string)
    (detail : Proto.CompletionEntryDetails) : Prop :=
  isSnippet d = true
  \/ CompletionItem.insertTextFormat item <> Some InsertTextFormat.Snippet
  \/ exists e, getCodeActions detail filepath = Throw e.

Definition resolveCompletionItem (item : option CompletionItem.t) : Resolution :=
  match item with
  | None => Resolved None
  | Some item =>
      match CompletionItem.data item with
      | None => Rejected TypeError item
      | Some d =>
          match toPath (uri d) with
          | None => Resolved None
          | Some filepath =>
              if String.eqb filepath "" then Resolved None
              else
                let previousInsert := CompletionItem.insertText item in
                let args := detailsArgs filepath d in
                match execute_completionEntryDetails args with
                | Throw _ => Resolved (Some item)
                | Ok (ServerResponse.Response (Some (Some detail :: _)) _) =>
                    enrich item d filepath previousInsert detail
                | Ok _ => Resolved (Some item)
                end
          end
      end
  end.

(** The state of the item object once the call is over: the early
    returns happen before any assignment. *)
Definition item_after (item : CompletionItem.t) (r : Resolution) : CompletionItem.t :=
  match r with
  | Resolved (Some i) => i
  | Resolved None => item
  | Rejected _ st => st
  end.

End Resolve.

Section Provide.
Context `{ITypeScriptServiceClient} `{Workspace} `{TypingsStatus}
        `{FileConfigurationManager} `{TypeConverters} `{CompletionItemUtils}.

(** The language id the provider was created for. *)
Variable lang : string.

(** [option.synname && /string/i.test(option.synname)] *)
Definition inStringSyntax (opt : CompleteOption) : bool :=
  match synname opt with
  | Some syn => negb (String.eqb syn "") && Regex.test Patterns.stringSyntax syn
  | None => false
  end.

(** The first [if] of [shouldTrigger]: [Some b] when it returns [b],
    [None] when control falls through to the second [if]. *)
Definition legacyTrigger
    (triggerCharacter : option string) (pre : string) (opt : CompleteOption)
    : option bool :=
  if Js.truthy triggerCharacter && API.lt apiVersion API.v290 then
    if is_char triggerCharacter "@" then
      if inStringSyntax opt then Some true
      else if negb (Regex.test Patterns.jsdocLine pre)
              && negb (Regex.test Patterns.jsdocOpen pre)
      then Some false
      else None
    else if is_char triggerCharacter "<" then Some false
    else None
  else None.

Definition shouldTrigger
    (triggerCharacter : option string) (pre : string) (opt : CompleteOption)
    (configuration : CompletionConfiguration.t) : bool :=
  match legacyTrigger triggerCharacter pre opt with
  | Some b => b
  | None =>
      if is_char triggerCharacter " " then
        if negb (CompletionConfiguration.importStatementSuggestions configuration)
           || negb (API.lt apiVersion API.v430)
        then false
        else String.eqb pre "import "
      else true
  end.

Definition getTsTriggerCharacter (context : CompletionContext) : option string :=
  let c := triggerCharacter context in
  if is_char c "@" then
    if API.gte apiVersion API.v310 && API.lt apiVersion API.v320
    then None else Some "@"
  else if is_char c "#" then
    if API.lt apiVersion API.v381 then None else Some "#"
  else if is_char c " " then
    if API.gte apiVersion API.v430 then Some " " else None
  else if is_char c "." || is_char c doubleQuote || is_char c "'" || is_char c "`"
          || is_char c "/" || is_char c "<"
  then c
  else None.

Definition isInValidCommitCharacterContext
    (document : LinesTextDocument) (position : Position) : bool :=
  if API.lt apiVersion API.v320 && (1 <? character position) then
    let preText :=
      getText document
        {| start := {| line := line position; character := 0 |};
           end_ := {| line := line position; character := character position |} |} in
    negb (Regex.test Patterns.spaceDot preText
          || Regex.test Patterns.loneDot preText)
  else true.

(** The accessor range of a member completion: [dotMatch] is the match
    array, and the start of the range is [dotMatch.length] characters
    before the cursor.  A match leaves at least one character before the
    cursor, so the subtraction stays in the naturals. *)
Definition memberDotAccessorContext
    (document : LinesTextDocument) (position : Position) (preText : string)
    : option DotAccessorContext :=
  match Regex.match_suffix Patterns.dotAccessor
          (Js.slice_to (character position) preText) with
  | Some dotMatch =>
      let range :=
        {| start := {| line := line position;
                       character := character position - List.length dotMatch |};
           end_ := position |} in
      let text := getText document range in
      Some {| dot_range := range; dot_text := text |}
  | None => None
  end.

(** The loop over the entries, pushing one item per entry kept. *)
Fixpoint collectItems
    (convert : Proto.CompletionEntry -> CompletionItem.t)
    (completionConfiguration : CompletionConfiguration.t)
    (entries : list Proto.CompletionEntry)
    (completionItems : list CompletionItem.t) : list CompletionItem.t :=
  match entries with
  | [] => completionItems
  | element :: rest =>
      if shouldExcludeCompletionEntry element completionConfiguration
      then collectItems convert completionConfiguration rest completionItems
      else collectItems convert completionConfiguration rest
             (completionItems ++ [convert element])
  end.

Definition acquiringTypingsItem : CompletionItem.t :=
  {| CompletionItem.label := "Acquiring typings...";
     CompletionItem.detail :=
       Some "Acquiring typings definitions for IntelliSense.";
     CompletionItem.documentation := None;
     CompletionItem.insertText := None;
     CompletionItem.insertTextFormat := None;
     CompletionItem.command := None;
     CompletionItem.additionalTextEdits := None;
     CompletionItem.data := None |}.

Definition truthy_flag (b : option bool) : bool :=
  match b with Some v => v | None => false end.

(** What the round trip yields: [None] for an early [return null], else
    the entries with the three flags and the accessor context. *)
Record RoundTrip : Type := {
  rt_entries : list Proto.CompletionEntry;
  rt_isNewIdentifierLocation : bool;
  rt_isMemberCompletion : bool;
  rt_isIncomplete : bool;
  rt_dotAccessorContext : option DotAccessorContext
}.

Definition roundTrip
    (document : LinesTextDocument) (position : Position) (preText : string)
    (args : Proto.CompletionsRequestArgs) : Outcome (option RoundTrip) :=
  if API.gte apiVersion API.v300 then
    match execute_completionInfo args with
    | Throw e =>
        match e with
        | Error message =>
            if String.eqb message "No content available." then Ok None
            else Throw e
        | TypeError => Throw e
        end
    | Ok (ServerResponse.Response (Some body) metadata) =>
        let isMemberCompletion := Proto.isMemberCompletion body in
        Ok (Some
          {| rt_entries := Proto.entries body;
             rt_isNewIdentifierLocation := Proto.isNewIdentifierLocation body;
             rt_isMemberCompletion := isMemberCompletion;
             rt_isIncomplete :=
               truthy_flag (Proto.isIncomplete body)
               || match metadata with
                  | Some m => truthy_flag (ServerResponse.metadata_isIncomplete m)
                  | None => false
                  end;
             rt_dotAccessorContext :=
               if isMemberCompletion
               then memberDotAccessorContext document position preText
               else None |})
    | Ok _ => Ok None
    end
  else
    match execute_completions args with
    | Throw e => Throw e
    | Ok (ServerResponse.Response (Some body) _) =>
        Ok (Some
          {| rt_entries := body;
             rt_isNewIdentifierLocation := true;
             rt_isMemberCompletion := false;
             rt_isIncomplete := false;
             rt_dotAccessorContext := None |})
    | Ok _ => Ok None
    end.

(** [provideCompletionItems]: the new value of [this.currentLine] and the
    result. *)
Definition provideCompletionItems
    (currentLine : option string)
    (document : LinesTextDocument) (position : Position)
    (context : CompletionContext)
    : option string * Outcome (option CompletionList) :=
  if isAcquiringTypings then
    (currentLine,
     Ok (Some {| isIncomplete := true; items := [acquiringTypingsItem] |}))
  else
    let uri := doc_uri document in
    match toPath uri with
    | None => (currentLine, Ok None)
    | Some file =>
        if String.eqb file "" then (currentLine, Ok None)
        else
          let preText :=
            getText document
              {| start := {| line := line position; character := 0 |};
                 end_ := position |} in
          let line_ := nth_error (lines document) (line position) in
          let completionConfiguration :=
            CompletionConfiguration.getConfigurationForResource lang uri in
          if negb (shouldTrigger (triggerCharacter context) preText
                     (option_ context) completionConfiguration)
          then (currentLine, Ok None)
          else
            (nth_error (lines document) (line position),
             let* _ := ensureConfigurationForDocument document in
             let args :=
               {| Proto.location := toFileLocationRequestArgs file position;
                  Proto.includeExternalModuleExports :=
                    CompletionConfiguration.autoImportSuggestions
                      completionConfiguration;
                  Proto.includeInsertTextCompletions := true;
                  Proto.triggerCharacter := getTsTriggerCharacter context |} in
             let valid := isInValidCommitCharacterContext document position in
             let* response := roundTrip document position preText args in
             match response with
             | None => Ok None
             | Some rt =>
                 let convert element :=
                   convertCompletionEntry element uri position
                     {| ctx_line := line_;
                        ctx_triggerCharacter := triggerCharacter context;
                        ctx_isNewIdentifierLocation := rt_isNewIdentifierLocation rt;
                        ctx_isMemberCompletion := rt_isMemberCompletion rt;
                        enableCallCompletions :=
                          CompletionConfiguration.useCodeSnippetsOnMethodSuggest
                            completionConfiguration;
                        isInValidCommitCharacterContext_ := valid;
                        dotAccessorContext := rt_dotAccessorContext rt |} in
                 Ok (Some {| isIncomplete := rt_isIncomplete rt;
                             items :=
                               collectItems convert completionConfiguration
                                 (rt_entries rt) [] |})
             end)
    end.

End Provide.

(** ** The specification's wording of two components *)

Module Spec.

(** "Empty or blank": nothing but white space. *)
Definition is_blank (s : string) : bool :=
  forallb Js.is_space (list_ascii_of_string s).

(** The Entry Filter: an entry is dropped when its kind is "warning" and
    name suggestions are off, when its kind is a path kind and path
    suggestions are off, or when it carries [hasAction] and auto-import
    suggestions are off. *)
Definition drops (cfg : CompletionConfiguration.t) (e : Proto.CompletionEntry)
    : bool :=
  (String.eqb (Proto.kind e) "warning"
   && negb (CompletionConfiguration.nameSuggestions cfg))
  || ((String.eqb (Proto.kind e) "directory"
       || String.eqb (Proto.kind e) "script"
       || String.eqb (Proto.kind e) "external module name")
      && negb (CompletionConfiguration.pathSuggestions cfg))
  || (match Proto.hasAction e with Some true => true | _ => false end
      && negb (CompletionConfiguration.autoImportSuggestions cfg)).

(** [Subsequence k l]: [k] is [l] with some elements removed, the others
    in their order. *)
Inductive Subsequence {A : Type} : list A -> list A -> Prop :=
| sub_nil : Subsequence [] []
| sub_skip x k l : Subsequence k l -> Subsequence k (x :: l)
| sub_keep x k l : Subsequence k l -> Subsequence (x :: k) (x :: l).

Definition newline : string := String "010" "".

(** The detail request gave nothing to work with: it failed, or its
    answer is not a response, or has no body, or an empty body, or an
    absent first detail. *)
Inductive NoDetail :
  Outcome (ServerResponse.t (list (option Proto.CompletionEntryDetails))) -> Prop :=
| request_failed e : NoDetail (Throw e)
| request_cancelled reason : NoDetail (Ok (ServerResponse.Cancelled reason))
| no_content : NoDetail (Ok ServerResponse.NoContent)
| body_absent m : NoDetail (Ok (ServerResponse.Response None m))
| body_empty m : NoDetail (Ok (ServerResponse.Response (Some []) m))
| first_detail_absent rest m :
    NoDetail (Ok (ServerResponse.Response (Some (None :: rest)) m)).

(** The documentation: the auto-import line when there is a source
    module, then the description and the tags that are not blank, the
    last two separated by an empty line; unset when that is empty. *)
Definition documentationOf `{Previewer} (detail : Proto.CompletionEntryDetails)
    : option MarkupContent :=
  let autoImport :=
    match Proto.detail_source detail with
    | Some src =>
        ("Auto import from '" ++ plainWithLinks (Some src) ++ "'" ++ newline)%string
    | None => ""
    end in
  let description := plainWithLinks (Proto.documentation detail) in
  let structuredTags := tagsMarkdownPreview (Proto.tags detail) in
  let blocks :=
    filter (fun s => negb (is_blank s)) [description; structuredTags] in
  let text := (autoImport ++ Js.join (newline ++ newline) blocks)%string in
  if String.eqb text "" then None
  else Some {| kind := Markdown; value := text |}.

End Spec.

(** ** Concrete collaborators for the examples *)

Module Fixtures.

Definition client
    (v : API.t) (path : string -> option string)
    (info : Outcome (ServerResponse.t Proto.CompletionInfo))
    (details :
       Outcome (ServerResponse.t (list (option Proto.CompletionEntryDetails))))
    (quick : Outcome (ServerResponse.t Proto.QuickInfoResponseBody))
    : ITypeScriptServiceClient :=
  {| toPath := path;
     apiVersion := v;
     execute_completionInfo := fun _ => info;
     execute_completions := fun _ => Ok ServerResponse.NoContent;
     execute_completionEntryDetails := fun _ => details;
     execute_quickinfo := fun _ => quick |}.

(** [file:///x] resolves to [/x]; anything else does not resolve. *)
Definition fileScheme (u : string) : option string :=
  if prefix "file://" u then Some (Js.slice_from 7 u) else None.

Definition workspace : Workspace :=
  {| getConfiguration := fun _ _ _ => None |}.

Definition typingsReady : TypingsStatus := {| isAcquiringTypings := false |}.

Definition fileConfigurationManager : FileConfigurationManager :=
  {| ensureConfigurationForDocument := fun _ => Ok tt |}.

Definition previewer : Previewer :=
  {| plainWithLinks := fun ps =>
       match ps with
       | Some l => String.concat "" (map Proto.text l)
       | None => ""
       end;
     tagsMarkdownPreview := fun ts =>
       match ts with
       | Some l => Js.join Spec.newline
                     (map (fun t => ("*@" ++ Proto.tag_name t ++ "*")%string) l)
       | None => ""
       end |}.

Definition converters : TypeConverters :=
  {| toFileLocationRequestArgs := fun file p =>
       {| Proto.file := file;
          Proto.args_line := line p + 1;
          Proto.args_offset := character p + 1 |};
     fromCodeEdit := fun e =>
       {| range :=
            {| start := {| line := Proto.line (Proto.start e) - 1;
                           character := Proto.offset (Proto.start e) - 1 |};
               end_ := {| line := Proto.line (Proto.end_ e) - 1;
                          character := Proto.offset (Proto.end_ e) - 1 |} |};
          newText := Proto.newText e |} |}.

(** The parts named [parameterName] that no [?] follows, and whether a
    [?] follows one of them. *)
Fixpoint parameterParts (ps : list Proto.SymbolDisplayPart) : ParameterListParts :=
  match ps with
  | [] => {| parts := []; hasOptionalParameters := false |}
  | p :: rest =>
      let r := parameterParts rest in
      if String.eqb (Proto.part_kind p) "parameterName" then
        match rest with
        | q :: _ =>
            if String.eqb (Proto.text q) "?"
            then {| parts := parts r; hasOptionalParameters := true |}
            else {| parts := p :: parts r;
                    hasOptionalParameters := hasOptionalParameters r |}
        | [] => {| parts := p :: parts r;
                   hasOptionalParameters := hasOptionalParameters r |}
        end
      else r
  end.

Definition utils : CompletionItemUtils :=
  {| convertCompletionEntry := fun e u p ctx =>
       {| CompletionItem.label := Proto.name e;
          CompletionItem.detail := None;
          CompletionItem.documentation := None;
          CompletionItem.insertText := Proto.insertText e;
          CompletionItem.insertTextFormat :=
            if enableCallCompletions ctx
            then Some InsertTextFormat.Snippet
            else Some InsertTextFormat.PlainText;
          CompletionItem.command := None;
          CompletionItem.additionalTextEdits := None;
          CompletionItem.data :=
            Some {| uri := u; position := p; source := Proto.source e;
                    name := Proto.name e; data := Proto.data e;
                    isSnippet := false |} |};
     getParameterListParts := parameterParts |}.

(** A snippet under construction: the text so far and the next free
    tab-stop number. *)
Record Snippet : Type := { snippet_text : string; next_tabstop : nat }.

Definition decimal (n : nat) : string :=
  NilEmpty.string_of_uint (Nat.to_uint n).

(** Snippet syntax: [$n] is a tab stop, [${n:text}] a placeholder; text
    is appended as it is. *)
Definition snippets : SnippetString Snippet :=
  {| new_SnippetString := {| snippet_text := ""; next_tabstop := 1 |};
     appendText := fun t s =>
       {| snippet_text := (snippet_text s ++ t)%string;
          next_tabstop := next_tabstop s |};
     appendTabstop := fun n s =>
       match n with
       | Some k =>
           {| snippet_text := (snippet_text s ++ "$" ++ decimal k)%string;
              next_tabstop := next_tabstop s |}
       | None =>
           {| snippet_text :=
                (snippet_text s ++ "$" ++ decimal (next_tabstop s))%string;
              next_tabstop := next_tabstop s + 1 |}
       end;
     appendPlaceholder := fun t s =>
       {| snippet_text :=
            (snippet_text s ++ "${" ++ decimal (next_tabstop s) ++ ":" ++ t ++ "}")%string;
          next_tabstop := next_tabstop s + 1 |};
     snippet_value := snippet_text |}.

(** A detail that carries nothing but code actions. *)
Definition detailWith (actions : list Proto.CodeAction) : Proto.CompletionEntryDetails :=
  {| Proto.displayParts := []; Proto.documentation := None; Proto.tags := None;
     Proto.codeActions := Some actions; Proto.detail_source := None |}.

(** A one-file document whose [getText] reads a range inside one line. *)
Definition document (ls : list string) : LinesTextDocument :=
  {| doc_uri := "file:///a.ts";
     lines := ls;
     getText := fun r =>
       match nth_error ls (line (start r)) with
       | Some l =>
           substring (character (start r))
             (character (end_ r) - character (start r)) l
       | None => ""
       end |}.

(** A workspace in which the key [k] is switched off and nothing else is
    set. *)
Definition workspaceWithout (k : string) : Workspace :=
  {| getConfiguration := fun _ _ key =>
       if String.eqb key k then Some false else None |}.

Definition entry (n k : string) : Proto.CompletionEntry :=
  {| Proto.name := n; Proto.kind := k; Proto.source := None;
     Proto.hasAction := None; Proto.insertText := None; Proto.data := None |}.

(** The answer of [completionInfo] for a list of entries. *)
Definition infoOf (member : bool) (es : list Proto.CompletionEntry)
    : Outcome (ServerResponse.t Proto.CompletionInfo) :=
  Ok (ServerResponse.Response
        (Some {| Proto.isNewIdentifierLocation := false;
                 Proto.isMemberCompletion := member;
                 Proto.isIncomplete := None;
                 Proto.entries := es |})
        None).

(** A list request on a one-file document, for a provider whose
    [currentLine] is still the initial empty string. *)
Definition provideWith
    (v : API.t) (w : Workspace)
    (info : Outcome (ServerResponse.t Proto.CompletionInfo))
    (ls : list string) (p : Position) (c : CompletionContext)
    : option string * Outcome (option CompletionList) :=
  @provideCompletionItems
    (client v fileScheme info (Ok ServerResponse.NoContent) (Ok ServerResponse.NoContent))
    w typingsReady fileConfigurationManager converters utils
    "typescript" (Some "") (document ls) p c.

(** The labels of the items of a result. *)
Definition labelsOf (r : option string * Outcome (option CompletionList))
    : option (list string) :=
  match snd r with
  | Ok (Some l) => Some (map CompletionItem.label (items l))
  | _ => None
  end.

End Fixtures.

Module ResolveExamples.

Definition noAnswer {B : Type} : Outcome (ServerResponse.t B) :=
  Ok ServerResponse.NoContent.

(** A client whose detail request answers [details]. *)
Definition clientAnswering
    (details :
       Outcome (ServerResponse.t (list (option Proto.CompletionEntryDetails))))
    : ITypeScriptServiceClient :=
  Fixtures.client (API.mk 4 5 0) Fixtures.fileScheme noAnswer details noAnswer.

(** An item as [convertCompletionEntry] leaves it, for the document
    [u]. *)
Definition itemFor (u : string) (snippet : bool) : CompletionItem.t :=
  {| CompletionItem.label := "readFile";
     CompletionItem.detail := None;
     CompletionItem.documentation := None;
     CompletionItem.insertText := Some "readFile";
     CompletionItem.insertTextFormat := Some InsertTextFormat.Snippet;
     CompletionItem.command := None;
     CompletionItem.additionalTextEdits := None;
     CompletionItem.data :=
       Some {| uri := u; position := {| line := 0; character := 3 |};
               source := None; name := "readFile"; data := None;
               isSnippet := snippet |} |}.

Definition part (k t : string) : Proto.SymbolDisplayPart :=
  {| Proto.text := t; Proto.part_kind := k |}.

(** The detail of [readFile(path: string)]. *)
Definition readFileDetail : Proto.CompletionEntryDetails :=
  {| Proto.displayParts :=
       [ part "functionName" "readFile"; part "punctuation" "(";
         part "parameterName" "path"; part "punctuation" ":";
         part "keyword" "string"; part "punctuation" ")" ];
     Proto.documentation := Some [ part "text" "Reads a file." ];
     Proto.tags := None;
     Proto.codeActions := None;
     Proto.detail_source := None |}.

Definition resolveWith
    (details :
       Outcome (ServerResponse.t (list (option Proto.CompletionEntryDetails))))
    (item : option CompletionItem.t) : Resolution :=
  @resolveCompletionItem (clientAnswering details) Fixtures.previewer
    Fixtures.converters Fixtures.utils _ Fixtures.snippets (Some "fs.") item.

End ResolveExamples.

(** ** The deferred command, and the calls a snippet is built from *)

(** [TypeScriptCompletionItemProvider.triggerCharacters] *)
Definition triggerCharacters : list string :=
  ["."; doubleQuote; "'"; "`"; "/"; "@"; "<"; "#"; " "].

(** [window.showQuickpick(items, title)]: the index chosen, negative when
    the choice is cancelled. *)
Class Window : Type := {
  showQuickpick : list string -> string -> Outcome Z
}.

(** [applyCodeAction(client, action)] of [utils/codeAction]; the action is
    absent when the caller indexes past the end of the list. *)
Class CodeActionApplier : Type := {
  applyCodeAction : option Proto.CodeAction -> Outcome bool
}.

Module ApplyCommand.

(** The calls [execute] makes to its collaborators, in order. *)
Inductive Call : Type :=
| ShowQuickpick (items : list string) (title : string) : Call
| ApplyCodeAction (action : option Proto.CodeAction) : Call.

(** [ApplyCompletionCodeActionCommand.execute]: the calls made and how the
    promise settles. *)
Definition execute `{Window} `{CodeActionApplier}
    (codeActions : list Proto.CodeAction) : list Call * Outcome unit :=
  match codeActions with
  | [] => ([], Ok tt)
  | [action] =>
      ([ApplyCodeAction (Some action)],
       let* _ := applyCodeAction (Some action) in Ok tt)
  | _ :: _ :: _ =>
      let items := map Proto.description codeActions in
      let title := "Select code action to apply" in
      match showQuickpick items title with
      | Throw e => ([ShowQuickpick items title], Throw e)
      | Ok idx =>
          if (idx <? 0)%Z then ([ShowQuickpick items title], Ok tt)
          else
            let action := nth_error codeActions (Z.to_nat idx) in
            ([ShowQuickpick items title; ApplyCodeAction action],
             let* _ := applyCodeAction action in Ok tt)
      end
  end.

(** The actions handed to [applyCodeAction]. *)
Definition applied (calls : list Call) : list (option Proto.CodeAction) :=
  flat_map (fun c => match c with
                     | ApplyCodeAction a => [a]
                     | ShowQuickpick _ _ => []
                     end) calls.

End ApplyCommand.

Module SnippetCalls.

(** A call on a [SnippetString]. *)
Inductive Call : Type :=
| AppendText (t : string) : Call
| AppendPlaceholder (t : string) : Call
| AppendTabstop (n : option nat) : Call.

Definition run_call {S : Type} `{SnippetString S} (s : S) (c : Call) : S :=
  match c with
  | AppendText t => appendText t s
  | AppendPlaceholder t => appendPlaceholder t s
  | AppendTabstop n => appendTabstop n s
  end.

(** The calls made one after the other on a snippet. *)
Definition run {S : Type} `{SnippetString S} (calls : list Call) (s : S) : S :=
  fold_left run_call calls s.

(** A joiner before every placeholder but the first. *)
Definition joined (texts : list string) (joiner : string) : list Call :=
  tl (flat_map (fun t => [AppendText joiner; AppendPlaceholder t]) texts).

End SnippetCalls.

(** ** More concrete collaborators *)

Module MoreFixtures.

Definition typingsBusy : TypingsStatus := {| isAcquiringTypings := true |}.

(** A client whose list requests fail with the error [e]. *)
Definition failingClient (v : API.t) (e : JsError) : ITypeScriptServiceClient :=
  {| toPath := Fixtures.fileScheme;
     apiVersion := v;
     execute_completionInfo := fun _ => Throw e;
     execute_completions := fun _ => Throw e;
     execute_completionEntryDetails := fun _ => Ok ServerResponse.NoContent;
     execute_quickinfo := fun _ => Ok ServerResponse.NoContent |}.

(** A client whose quickinfo request fails. *)
Definition quickinfoFails : ITypeScriptServiceClient :=
  Fixtures.client (API.mk 4 5 0) Fixtures.fileScheme
    (Ok ServerResponse.NoContent) (Ok ServerResponse.NoContent)
    (Throw (Error "timeout")).

(** A window in which the choice [idx] is made. *)
Definition windowChoosing (idx : Z) : Window :=
  {| showQuickpick := fun _ _ => Ok idx |}.

(** An applier that succeeds. *)
Definition applier : CodeActionApplier :=
  {| applyCodeAction := fun _ => Ok true |}.

Definition action (d : string) (cs : list Proto.FileCodeEdits)
    (cmds : option (list string)) : Proto.CodeAction :=
  {| Proto.description := d; Proto.changes := Some cs; Proto.commands := cmds |}.

Definition edit (l : nat) (t : string) : Proto.CodeEdit :=
  {| Proto.start := {| Proto.line := l; Proto.offset := 1 |};
     Proto.end_ := {| Proto.line := l; Proto.offset := 1 |};
     Proto.newText := t |}.

Definition change (f : string) (es : list Proto.CodeEdit) : Proto.FileCodeEdits :=
  {| Proto.fileName := f; Proto.textChanges := es |}.

(** An import fix touching [/a.ts] and [/b.ts], and a sort fix with a
    command that touches [/a.ts] only. *)
Definition sampleActions : list Proto.CodeAction :=
  [ action "Import b"
      [change "/a.ts" [edit 1 "import b"]; change "/b.ts" [edit 3 "export"]] None;
    action "Sort" [change "/a.ts" [edit 2 "sorted"]] (Some ["sortImports"]) ].

Definition samplePayload : list Proto.CodeAction :=
  [ action "Import b" [change "/b.ts" [edit 3 "export"]] None;
    action "Sort" [] (Some ["sortImports"]) ].

Definition sampleCommand : Command :=
  {| title := ""; command := "_typescript.applyCompletionCodeAction";
     arguments := [samplePayload] |}.

Definition textEdit (l : nat) (t : string) : TextEdit :=
  {| range := {| start := {| line := l; character := 0 |};
                 end_ := {| line := l; character := 0 |} |};
     newText := t |}.

Definition sampleResult : CodeActionsResult :=
  {| result_command := Some sampleCommand;
     result_additionalTextEdits := Some [textEdit 0 "import b"; textEdit 1 "sorted"] |}.

End MoreFixtures.

(** ** What the splitter computes, said without the loop *)

Module Splitter.

Definition isCurrent (filepath : string) (c : Proto.FileCodeEdits) : bool :=
  String.eqb (Proto.fileName c) filepath.

(** The changes of an action; none when the field is absent. *)
Definition changesOf (a : Proto.CodeAction) : list Proto.FileCodeEdits :=
  match Proto.changes a with
  | Some cs => cs
  | None => []
  end.

(** The edits of the changes for the current file, action by action and
    change by change. *)
Definition inlineEdits `{TypeConverters}
    (filepath : string) (actions : list Proto.CodeAction) : list TextEdit :=
  flat_map
    (fun a =>
       flat_map (fun c => map fromCodeEdit (Proto.textChanges c))
         (filter (isCurrent filepath) (changesOf a)))
    actions.

(** Some action carries commands or a change for another file. *)
Definition remainingWork (filepath : string) (actions : list Proto.CodeAction) : bool :=
  existsb
    (fun a =>
       match Proto.commands a with Some _ => true | None => false end
       || existsb (fun c => negb (isCurrent filepath c)) (changesOf a))
    actions.

(** An action without its changes for the current file. *)
Definition withoutCurrentFile (filepath : string) (a : Proto.CodeAction)
    : Proto.CodeAction :=
  {| Proto.commands := Proto.commands a;
     Proto.description := Proto.description a;
     Proto.changes :=
       Some (filter (fun c => negb (isCurrent filepath c)) (changesOf a)) |}.

End Splitter.

(** * Properties *)

(** ** The derivative matcher decides the language *)

Module RegexFacts.
Import Regex.

Lemma matches_nil_nullable (r : regex) :
  matches r [] -> nullable r = true.
Proof.
  induction r; intro Hm; simpl; try reflexivity.
  - inversion Hm.
  - inversion Hm.
  - inversion Hm as [| |? ? s1 s2 H1 H2| | | |]; subst.
    match goal with Heq : _ ++ _ = [] |- _ =>
      apply app_eq_nil in Heq as [-> ->] end.
    rewrite IHr1, IHr2 by assumption. reflexivity.
  - inversion Hm; subst.
    + rewrite IHr1 by assumption. reflexivity.
    + rewrite IHr2 by assumption. apply orb_true_r.
Qed.

Lemma nullable_matches_nil (r : regex) :
  nullable r = true -> matches r [].
Proof.
  induction r; simpl; intro Hn; try discriminate.
  - constructor.
  - apply andb_true_iff in Hn as [H1 H2].
    change (@nil ascii) with (@nil ascii ++ []).
    constructor; auto.
  - apply orb_true_iff in Hn as [H1 | H2].
    + apply MAltL; auto.
    + apply MAltR; auto.
  - constructor.
Qed.

Lemma star_cons_inv (r : regex) (c : ascii) (s : list ascii) :
  matches (Star r) (c :: s) ->
  exists s1 s2, s = s1 ++ s2 /\ matches r (c :: s1) /\ matches (Star r) s2.
Proof.
  intro Hm.
  remember (Star r) as r0 eqn:Hr.
  remember (c :: s) as w eqn:Hw.
  revert s Hw.
  induction Hm as [| | | | | r'|r' s1 s2 H1 IH1 H2 IH2]; intros t Hw;
    try discriminate.
  injection Hr as ->.
  destruct s1 as [|c1 s1].
  - simpl in Hw. apply IH2; auto.
  - simpl in Hw. injection Hw as -> <-.
    exists s1, s2. auto.
Qed.

Lemma deriv_sound (c : ascii) (r : regex) :
  forall s, matches (deriv c r) s -> matches r (c :: s).
Proof.
  induction r; simpl; intros s Hm.
  - inversion Hm.
  - inversion Hm.
  - destruct (p c) eqn:Hp; inversion Hm; subst. constructor. assumption.
  - destruct (nullable r1) eqn:Hn.
    + inversion Hm as [| | | ? ? ? Hc | ? ? ? Hd | |]; subst.
      * inversion Hc as [| |? ? s1 s2 H1 H2| | | |]; subst.
        change (c :: s1 ++ s2) with ((c :: s1) ++ s2).
        constructor; auto.
      * change (c :: s) with ([] ++ c :: s).
        constructor; auto using nullable_matches_nil.
    + inversion Hm as [| |? ? s1 s2 H1 H2| | | |]; subst.
      change (c :: s1 ++ s2) with ((c :: s1) ++ s2).
      constructor; auto.
  - inversion Hm; subst.
    + apply MAltL; auto.
    + apply MAltR; auto.
  - inversion Hm as [| |? ? s1 s2 H1 H2| | | |]; subst.
    change (c :: s1 ++ s2) with ((c :: s1) ++ s2).
    constructor; auto.
Qed.

Lemma deriv_complete (c : ascii) (r : regex) :
  forall s, matches r (c :: s) -> matches (deriv c r) s.
Proof.
  induction r; simpl; intros s Hm.
  - inversion Hm.
  - inversion Hm.
  - inversion Hm as [|? ? Hp| | | | |]; subst. rewrite Hp. constructor.
  - inversion Hm as [| |? ? s1 s2 H1 H2| | | |]; subst.
    match goal with Heq0 : _ ++ _ = _ :: _ |- _ => rename Heq0 into Heq end.
    destruct s1 as [|c1 s1]; simpl in Heq.
    + subst s2. rewrite (matches_nil_nullable H1).
      apply MAltR; auto.
    + injection Heq as -> <-.
      destruct (nullable r1).
      * apply MAltL. constructor; auto.
      * constructor; auto.
  - inversion Hm; subst.
    + apply MAltL; auto.
    + apply MAltR; auto.
  - apply star_cons_inv in Hm as (s1 & s2 & -> & H1 & H2).
    constructor; auto.
Qed.

Lemma accepts_iff (r : regex) (s : list ascii) :
  accepts r s = true <-> matches r s.
Proof.
  revert r; induction s as [|c s IH]; intro r; simpl.
  - split; [apply nullable_matches_nil | apply matches_nil_nullable].
  - rewrite IH. split; [apply deriv_sound | apply deriv_complete].
Qed.

Lemma accepts_prefix_iff (r : regex) (s : list ascii) :
  accepts_prefix r s = true <->
  exists s1 s2, s = s1 ++ s2 /\ matches r s1.
Proof.
  revert r; induction s as [|c s IH]; intro r; simpl.
  - rewrite orb_false_r. split.
    + intro Hn. exists [], []. auto using nullable_matches_nil.
    + intros (s1 & s2 & Heq & Hm). symmetry in Heq.
      apply app_eq_nil in Heq as [-> ->]. auto using matches_nil_nullable.
  - rewrite orb_true_iff, IH. split.
    + intros [Hn | (s1 & s2 & -> & Hm)].
      * exists [], (c :: s). auto using nullable_matches_nil.
      * exists (c :: s1), s2. auto using deriv_sound.
    + intros (s1 & s2 & Heq & Hm). destruct s1 as [|c1 s1]; simpl in Heq.
      * left. auto using matches_nil_nullable.
      * injection Heq as <- ->. right. exists s1, s2.
        auto using deriv_complete.
Qed.

Lemma accepts_factor_iff (r : regex) (s : list ascii) :
  accepts_factor r s = true <->
  exists s0 s1 s2, s = s0 ++ s1 ++ s2 /\ matches r s1.
Proof.
  induction s as [|c s IH].
  - cbn [accepts_factor]. rewrite orb_false_r, accepts_prefix_iff. split.
    + intros (s1 & s2 & Heq & Hm). exists [], s1, s2. auto.
    + intros (s0 & s1 & s2 & Heq & Hm). symmetry in Heq.
      apply app_eq_nil in Heq as [-> Heq]. simpl. eauto.
  - cbn [accepts_factor]. rewrite orb_true_iff, IH, accepts_prefix_iff. split.
    + intros [(s1 & s2 & Heq & Hm) | (s0 & s1 & s2 & -> & Hm)].
      * exists [], s1, s2. auto.
      * exists (c :: s0), s1, s2. auto.
    + intros (s0 & s1 & s2 & Heq & Hm). destruct s0 as [|c0 s0]; simpl in Heq.
      * left. eauto.
      * injection Heq as <- ->. right. eauto.
Qed.

Lemma leftmost_suffix_some_iff (r : regex) (s : list ascii) :
  (exists m, leftmost_suffix r s = Some m) <->
  exists s0 s1, s = s0 ++ s1 /\ matches r s1.
Proof.
  induction s as [|c s IH]; cbn [leftmost_suffix].
  - destruct (accepts r []) eqn:Ha.
    + apply accepts_iff in Ha. split; intro; [exists [], []|]; eauto.
    + split.
      * intros [m Hm]. discriminate.
      * intros (s0 & s1 & Heq & Hm). symmetry in Heq.
        apply app_eq_nil in Heq as [-> ->].
        apply accepts_iff in Hm. congruence.
  - destruct (accepts r (c :: s)) eqn:Ha.
    + apply accepts_iff in Ha. split; intro; [exists [], (c :: s)|]; eauto.
    + rewrite IH. split.
      * intros (s0 & s1 & -> & Hm). exists (c :: s0), s1. auto.
      * intros (s0 & s1 & Heq & Hm). destruct s0 as [|c0 s0]; simpl in Heq.
        -- subst s1. apply accepts_iff in Hm. congruence.
        -- injection Heq as <- ->. eauto.
Qed.

Lemma refines_matches (r r' : regex) (s : list ascii) :
  refines r r' -> matches r s -> matches r' s.
Proof.
  intros Hr Hm. revert r' Hr.
  induction Hm; intros r' Hr; inversion Hr; subst;
    solve [constructor; auto | apply MAltR; auto].
Qed.

Lemma refines_refl (r : regex) : refines r r.
Proof. induction r; constructor; auto. Qed.

End RegexFacts.

(** ** The patterns of the trigger gate *)

Module PatternFacts.
Import Regex RegexFacts Patterns.

Lemma test_refines (p q : pattern) (s : string) :
  anchor_start p = anchor_start q ->
  anchor_end p = anchor_end q ->
  refines (body p) (body q) ->
  test p s = true -> test q s = true.
Proof.
  unfold test. intros <- <- Hr.
  destruct (anchor_start p), (anchor_end p).
  - rewrite !accepts_iff. eauto using refines_matches.
  - rewrite !accepts_prefix_iff. intros (s1 & s2 & Heq & Hm).
    exists s1, s2. eauto using refines_matches.
  - intro Ht.
    destruct (leftmost_suffix (body p) (list_ascii_of_string s)) as [m|] eqn:E;
      try discriminate.
    assert (exists m', leftmost_suffix (body q) (list_ascii_of_string s) = Some m')
      as [m' ->]; [|reflexivity].
    apply leftmost_suffix_some_iff.
    destruct (proj1 (leftmost_suffix_some_iff (body p) (list_ascii_of_string s)))
      as (s0 & s1 & Heq & Hm); eauto.
    exists s0, s1. eauto using refines_matches.
  - rewrite !accepts_factor_iff. intros (s0 & s1 & s2 & Heq & Hm).
    exists s0, s1, s2. eauto using refines_matches.
Qed.

Lemma blank_is_space (c : ascii) :
  Ascii.eqb " " c = true -> Js.is_space c = true.
Proof. intro E. apply Ascii.eqb_eq in E. subst c. reflexivity. Qed.

Lemma opt_blank_refines : refines (Opt (lit " ")) (Opt space).
Proof.
  unfold Opt, lit, space. repeat constructor. apply blank_is_space.
Qed.

(** Whatever [/^\s*\*[ ]?@/] matches, [/^\s*\*\s?@/] matches. *)
Lemma jsdocLine_within_spec (pre : string) :
  test jsdocLine pre = true -> test jsdocLine_spec pre = true.
Proof.
  apply test_refines; try reflexivity. simpl.
  repeat first [apply opt_blank_refines | apply refines_refl | constructor].
Qed.

(** Whatever [/\/\*\*+[ ]?@/] matches, [/\/\*\*+\s?@/] matches. *)
Lemma jsdocOpen_within_spec (pre : string) :
  test jsdocOpen pre = true -> test jsdocOpen_spec pre = true.
Proof.
  apply test_refines; try reflexivity. simpl.
  repeat first [apply opt_blank_refines | apply refines_refl | constructor].
Qed.

End PatternFacts.

(** ** Trigger gate *)

Section TriggerGate.
Context `{ITypeScriptServiceClient}.

Lemma legacyTrigger_space (pre : string) (opt : CompleteOption) :
  legacyTrigger (Some " ") pre opt = None.
Proof.
  unfold legacyTrigger. simpl.
  destruct (API.lt apiVersion API.v290); reflexivity.
Qed.

(** C6. With the space character as trigger, [shouldTrigger] answers
    true exactly when import-statement suggestions are enabled, the
    version is below 4.3.0 (where the server handles the space itself),
    and the text before the cursor is the string ["import "]. *)
Theorem shouldTrigger_space_iff
    (pre : string) (opt : CompleteOption) (configuration : CompletionConfiguration.t) :
  shouldTrigger (Some " ") pre opt configuration = true <->
  CompletionConfiguration.importStatementSuggestions configuration = true
  /\ API.lt apiVersion API.v430 = true
  /\ pre = "import ".
Proof.
  unfold shouldTrigger. rewrite legacyTrigger_space. simpl.
  destruct (CompletionConfiguration.importStatementSuggestions configuration);
    destruct (API.lt apiVersion API.v430); simpl;
    rewrite ?String.eqb_eq; intuition congruence.
Qed.

(** C7. Below version 2.9.0: ['@'] is rejected when the syntax hint is
    not a string region and the text before the cursor matches neither
    [^\s*\*\s?@] nor [/\*\*+\s?@]; ['<'] is always rejected. *)
Theorem shouldTrigger_legacy_rejects
    (pre : string) (opt : CompleteOption) (configuration : CompletionConfiguration.t) :
  API.lt apiVersion API.v290 = true ->
  (inStringSyntax opt = false ->
   Regex.test Patterns.jsdocLine_spec pre = false ->
   Regex.test Patterns.jsdocOpen_spec pre = false ->
   shouldTrigger (Some "@") pre opt configuration = false)
  /\ shouldTrigger (Some "<") pre opt configuration = false.
Proof.
  intro Hlt. split.
  - intros Hsyn Hline Hopen.
    unfold shouldTrigger, legacyTrigger. simpl. rewrite Hlt, Hsyn.
    destruct (Regex.test Patterns.jsdocLine pre) eqn:E1.
    { apply PatternFacts.jsdocLine_within_spec in E1. congruence. }
    destruct (Regex.test Patterns.jsdocOpen pre) eqn:E2.
    { apply PatternFacts.jsdocOpen_within_spec in E2. congruence. }
    reflexivity.
  - unfold shouldTrigger, legacyTrigger. simpl. rewrite Hlt. reflexivity.
Qed.

End TriggerGate.

(** At version 2.8.0, ['@'] after [foo] in a comment region and ['<'] are
    both rejected. *)
Lemma shouldTrigger_legacy_rejects_witness :
  let c := Fixtures.client (API.mk 2 8 0) Fixtures.fileScheme
             (Ok ServerResponse.NoContent) (Ok ServerResponse.NoContent)
             (Ok ServerResponse.NoContent) in
  let cfg := @CompletionConfiguration.getConfigurationForResource
               Fixtures.workspace "typescript" "file:///a.ts" in
  @API.lt (@apiVersion c) API.v290 = true
  /\ (@shouldTrigger c (Some "@") "foo@" {| synname := Some "Comment" |} cfg = false
      /\ @shouldTrigger c (Some "<") "a <" {| synname := Some "Comment" |} cfg = false).
Proof.
  intros c cfg. split; [reflexivity|].
  destruct (@shouldTrigger_legacy_rejects c "foo@" {| synname := Some "Comment" |} cfg)
    as [Hat _]; [reflexivity|].
  destruct (@shouldTrigger_legacy_rejects c "a <" {| synname := Some "Comment" |} cfg)
    as [_ Hlt]; [reflexivity|].
  split; [apply Hat; reflexivity | exact Hlt].
Defined.

(** ** Entry filter *)

Section EntryFilter.

Lemma shouldExclude_is_drops
    (e : Proto.CompletionEntry) (cfg : CompletionConfiguration.t) :
  shouldExcludeCompletionEntry e cfg = Spec.drops cfg e.
Proof.
  unfold shouldExcludeCompletionEntry, Spec.drops,
    PConst.Kind.warning, PConst.Kind.directory, PConst.Kind.script,
    PConst.Kind.externalModuleName.
  destruct (CompletionConfiguration.nameSuggestions cfg),
    (CompletionConfiguration.pathSuggestions cfg),
    (CompletionConfiguration.autoImportSuggestions cfg),
    (Proto.hasAction e) as [[|]|];
    simpl; rewrite ?andb_true_r, ?andb_false_r, ?orb_false_r; reflexivity.
Qed.

Lemma collectItems_push
    (convert : Proto.CompletionEntry -> CompletionItem.t)
    (cfg : CompletionConfiguration.t) (entries : list Proto.CompletionEntry) :
  forall acc,
    collectItems convert cfg entries acc =
    acc ++ map convert
             (filter (fun e => negb (shouldExcludeCompletionEntry e cfg)) entries).
Proof.
  induction entries as [|e rest IH]; intro acc; simpl.
  - symmetry. apply app_nil_r.
  - destruct (shouldExcludeCompletionEntry e cfg); simpl.
    + apply IH.
    + rewrite IH, <- app_assoc. reflexivity.
Qed.

Lemma filter_Subsequence {A : Type} (f : A -> bool) (l : list A) :
  Spec.Subsequence (filter f l) l.
Proof.
  induction l as [|x l IH]; simpl.
  - constructor.
  - destruct (f x); constructor; assumption.
Qed.

Lemma collectItems_is_filter
    (convert : Proto.CompletionEntry -> CompletionItem.t)
    (cfg : CompletionConfiguration.t) (entries : list Proto.CompletionEntry) :
  collectItems convert cfg entries [] =
  map convert (filter (fun e => negb (Spec.drops cfg e)) entries).
Proof.
  rewrite collectItems_push. simpl. f_equal.
  apply filter_ext. intro e. rewrite shouldExclude_is_drops. reflexivity.
Qed.

(** C8. The loop over the entries produces the items of exactly the
    entries the filter does not drop: those that are not of kind
    "warning" with name suggestions off, not of a path kind with path
    suggestions off, and not carrying [hasAction] with auto-import
    suggestions off; the survivors keep their relative order. *)
Theorem entry_filter_exact
    (convert : Proto.CompletionEntry -> CompletionItem.t)
    (cfg : CompletionConfiguration.t) (entries : list Proto.CompletionEntry) :
  let kept := filter (fun e => negb (Spec.drops cfg e)) entries in
  collectItems convert cfg entries [] = map convert kept
  /\ Spec.Subsequence kept entries.
Proof.
  split.
  - apply collectItems_is_filter.
  - apply filter_Subsequence.
Qed.

End EntryFilter.

(** ** Documentation *)

Section DocumentationFacts.
Context `{Previewer}.

Lemma string_append_assoc (a b c : string) :
  ((a ++ b) ++ c = a ++ (b ++ c))%string.
Proof. induction a as [|x a IH]; simpl; [|rewrite IH]; reflexivity. Qed.

Lemma string_length_zero (s : string) :
  (String.length s =? 0) = String.eqb s "".
Proof. destruct s; reflexivity. Qed.

Lemma trimStart_empty (s : string) :
  Js.trimStart s = "" <-> Spec.is_blank s = true.
Proof.
  unfold Spec.is_blank. induction s as [|c s IH]; simpl.
  - tauto.
  - destruct (Js.is_space c); simpl; [exact IH|].
    split; discriminate.
Qed.

Lemma is_blank_rev (s : string) :
  Spec.is_blank (Js.rev_string s) = Spec.is_blank s.
Proof.
  unfold Spec.is_blank, Js.rev_string.
  rewrite list_ascii_of_string_of_list_ascii.
  generalize (list_ascii_of_string s) as l. intro l.
  induction l as [|c l IH]; simpl; [reflexivity|].
  rewrite forallb_app, IH. simpl. rewrite andb_true_r. apply andb_comm.
Qed.

Lemma rev_string_empty (s : string) :
  Js.rev_string s = "" <-> s = "".
Proof.
  unfold Js.rev_string. split.
  - intro E.
    apply (f_equal list_ascii_of_string) in E.
    rewrite list_ascii_of_string_of_list_ascii in E. simpl in E.
    destruct s as [|c s]; [reflexivity|].
    simpl in E. apply app_eq_nil in E as [_ E]. discriminate.
  - intros ->. reflexivity.
Qed.

(** What [trimStart] leaves is blank only if it is empty. *)
Lemma trimStart_blank (s : string) :
  Spec.is_blank (Js.trimStart s) = true -> Js.trimStart s = "".
Proof.
  unfold Spec.is_blank. induction s as [|c s IH]; simpl; [reflexivity|].
  destruct (Js.is_space c) eqn:E; [exact IH|].
  simpl. rewrite E. discriminate.
Qed.

Lemma trim_empty (s : string) :
  Js.trim s = "" <-> Spec.is_blank s = true.
Proof.
  unfold Js.trim, Js.trimEnd.
  rewrite rev_string_empty, trimStart_empty, is_blank_rev.
  split.
  - intro Hb. apply trimStart_empty. apply trimStart_blank. exact Hb.
  - intro Hb. apply trimStart_empty in Hb. rewrite Hb. reflexivity.
Qed.

Lemma keeps_part_not_blank (s : string) :
  keeps_part s = negb (Spec.is_blank s).
Proof.
  unfold keeps_part.
  destruct (Spec.is_blank s) eqn:Hb; simpl.
  - apply trim_empty in Hb. rewrite Hb. simpl. apply andb_false_r.
  - destruct (String.eqb (Js.trim s) "") eqn:Ht.
    + apply String.eqb_eq, trim_empty in Ht. congruence.
    + destruct s; [discriminate Hb | reflexivity].
Qed.

Lemma getDocumentation_is_documentationOf (detail : Proto.CompletionEntryDetails) :
  getDocumentation detail = Spec.documentationOf detail.
Proof.
  unfold getDocumentation, Spec.documentationOf, Spec.newline.
  rewrite string_length_zero.
  rewrite (filter_ext keeps_part (fun s => negb (Spec.is_blank s)))
    by apply keeps_part_not_blank.
  destruct (Proto.detail_source detail) as [src|]; simpl.
  - rewrite !string_append_assoc. reflexivity.
  - match goal with |- context [String.eqb ?x ""] => destruct (String.eqb x "") end;
      reflexivity.
Qed.

End DocumentationFacts.

Section DocumentationClaim.
Context `{Previewer}.

(** C9. The documentation is the line [Auto import from '<module>'] when
    the detail has a source module, followed by the rendered description
    and the rendered tags, in this order, blank ones left out and the
    two separated by an empty line; the result is never an empty string:
    when nothing is left (no source, blank description, blank tags) the
    documentation is unset. *)
Theorem getDocumentation_blocks (detail : Proto.CompletionEntryDetails) :
  let description := plainWithLinks (Proto.documentation detail) in
  let structuredTags := tagsMarkdownPreview (Proto.tags detail) in
  getDocumentation detail = Spec.documentationOf detail
  /\ (forall m, getDocumentation detail = Some m -> value m <> "")
  /\ (Proto.detail_source detail = None ->
      Spec.is_blank description = true ->
      Spec.is_blank structuredTags = true ->
      getDocumentation detail = None)
  /\ (forall src,
      Proto.detail_source detail = Some src ->
      Spec.is_blank description = false ->
      Spec.is_blank structuredTags = false ->
      getDocumentation detail =
      Some {| kind := Markdown;
              value := ("Auto import from '" ++ plainWithLinks (Some src) ++ "'"
                        ++ Spec.newline ++ description
                        ++ Spec.newline ++ Spec.newline ++ structuredTags)%string |}).
Proof.
  intros description structuredTags.
  rewrite getDocumentation_is_documentationOf.
  unfold Spec.documentationOf.
  fold description. fold structuredTags.
  split; [reflexivity|]. split; [|split].
  - intros m.
    match goal with |- (if String.eqb ?x "" then _ else _) = _ -> _ =>
      generalize x; intro text end.
    destruct (String.eqb text "") eqn:E; [discriminate|].
    intros [= <-]. simpl. intro E'. rewrite E' in E. discriminate.
  - intros -> Hd Ht. simpl. rewrite Hd, Ht. reflexivity.
  - intros src -> Hd Ht. simpl. rewrite Hd, Ht. simpl.
    rewrite !string_append_assoc. reflexivity.
Qed.

End DocumentationClaim.

(** A detail without source, description and tags has no documentation; one
    with all three has the three blocks. *)
Lemma getDocumentation_blocks_witness :
  let bare :=
    {| Proto.displayParts := []; Proto.documentation := None; Proto.tags := None;
       Proto.codeActions := None; Proto.detail_source := None |} in
  let full :=
    {| Proto.displayParts := [];
       Proto.documentation := Some [ {| Proto.text := "Reads a file."; Proto.part_kind := "text" |} ];
       Proto.tags := Some [ {| Proto.tag_name := "deprecated"; Proto.tag_text := None |} ];
       Proto.codeActions := None;
       Proto.detail_source := Some [ {| Proto.text := "fs"; Proto.part_kind := "text" |} ] |} in
  @getDocumentation Fixtures.previewer bare = None
  /\ @getDocumentation Fixtures.previewer full =
     Some {| kind := Markdown;
             value := ("Auto import from 'fs'" ++ Spec.newline ++ "Reads a file."
                       ++ Spec.newline ++ Spec.newline ++ "*@deprecated*")%string |}.
Proof.
  intros bare full. split.
  - destruct (@getDocumentation_blocks Fixtures.previewer bare) as (_ & _ & Hnone & _).
    apply Hnone; reflexivity.
  - destruct (@getDocumentation_blocks Fixtures.previewer full) as (_ & _ & _ & Hfull).
    apply (Hfull [ {| Proto.text := "fs"; Proto.part_kind := "text" |} ]); reflexivity.
Defined.

(** ** Function-call snippets *)

Section SnippetFacts.
Context {S : Type} `{SnippetString S} `{CompletionItemUtils}.

(** C5. When the parameter list has two required parameters and an
    optional one ([getParameterListParts] yields the two required parts
    and sets [hasOptionalParameters]), the snippet is the insertion text
    of the item, or its label when it has no insertion text, and ["("], a
    placeholder for each of the two parameters with [", "] between them,
    a tab stop, [")"], and the tab stop 0; it becomes the insertion text
    of the item, whose other fields are kept. *)
Theorem createSnippetOfFunctionCall_two_required
    (item : CompletionItem.t) (detail : Proto.CompletionEntryDetails)
    (p1 p2 : Proto.SymbolDisplayPart) :
  getParameterListParts (Proto.displayParts detail) =
    {| parts := [p1; p2]; hasOptionalParameters := true |} ->
  createSnippetOfFunctionCall item detail =
  {| CompletionItem.label := CompletionItem.label item;
     CompletionItem.detail := CompletionItem.detail item;
     CompletionItem.documentation := CompletionItem.documentation item;
     CompletionItem.insertText :=
       Some (snippet_value
         (appendTabstop (Some 0)
           (appendText ")"
             (appendTabstop None
               (appendPlaceholder (Proto.text p2)
                 (appendText ", "
                   (appendPlaceholder (Proto.text p1)
                     (appendText
                        (match CompletionItem.insertText item with
                         | Some insertText => insertText
                         | None => CompletionItem.label item
                         end ++ "(")%string
                        new_SnippetString))))))));
     CompletionItem.insertTextFormat := CompletionItem.insertTextFormat item;
     CompletionItem.command := CompletionItem.command item;
     CompletionItem.additionalTextEdits := CompletionItem.additionalTextEdits item;
     CompletionItem.data := CompletionItem.data item |}.
Proof.
  intro Hparts.
  unfold createSnippetOfFunctionCall, functionCallSnippet, insertTextOrLabel,
    CompletionItem.set_insertText.
  rewrite Hparts. reflexivity.
Qed.

End SnippetFacts.

(** [readFile(path: string, encoding: string, flag?: string)]: two
    placeholders, the extra tab stop, the final tab stop; the text before
    the parenthesis is the insertion text when the item has one, and the
    label otherwise. *)
Lemma createSnippetOfFunctionCall_two_required_witness :
  let part k t := {| Proto.text := t; Proto.part_kind := k |} in
  let detail :=
    {| Proto.displayParts :=
         [ part "functionName" "readFile"; part "punctuation" "(";
           part "parameterName" "path"; part "punctuation" ":";
           part "keyword" "string"; part "punctuation" ",";
           part "parameterName" "encoding"; part "punctuation" ":";
           part "keyword" "string"; part "punctuation" ",";
           part "parameterName" "flag"; part "punctuation" "?";
           part "punctuation" ":"; part "keyword" "string";
           part "punctuation" ")" ];
       Proto.documentation := None; Proto.tags := None;
       Proto.codeActions := None; Proto.detail_source := None |} in
  let item insertText :=
    {| CompletionItem.label := "readFile"; CompletionItem.detail := None;
       CompletionItem.documentation := None; CompletionItem.insertText := insertText;
       CompletionItem.insertTextFormat := Some InsertTextFormat.Snippet;
       CompletionItem.command := None; CompletionItem.additionalTextEdits := None;
       CompletionItem.data := None |} in
  CompletionItem.insertText
    (@createSnippetOfFunctionCall _ Fixtures.snippets Fixtures.utils
       (item (Some "fs.readFile")) detail)
  = Some "fs.readFile(${1:path}, ${2:encoding}$3)$0"
  /\ CompletionItem.insertText
       (@createSnippetOfFunctionCall _ Fixtures.snippets Fixtures.utils
          (item None) detail)
     = Some "readFile(${1:path}, ${2:encoding}$3)$0".
Proof.
  intros part detail item. split.
  - rewrite (@createSnippetOfFunctionCall_two_required _ Fixtures.snippets Fixtures.utils
               (item (Some "fs.readFile")) detail
               (part "parameterName" "path") (part "parameterName" "encoding"));
      reflexivity.
  - rewrite (@createSnippetOfFunctionCall_two_required _ Fixtures.snippets Fixtures.utils
               (item None) detail
               (part "parameterName" "path") (part "parameterName" "encoding"));
      reflexivity.
Defined.

(** ** Code action splitter *)

Section CodeActionFacts.
Context `{TypeConverters}.

Lemma scan_change_keeps_flag (filepath : string) (changes : list Proto.FileCodeEdits) :
  forall edits, snd (fold_left (scan_change filepath) changes (edits, true)) = true.
Proof.
  induction changes as [|c cs IH]; intro edits; simpl; [reflexivity|].
  destruct (String.eqb (Proto.fileName c) filepath); apply IH.
Qed.

Lemma scan_action_keeps_flag (filepath : string) (a : Proto.CodeAction)
    (edits : list TextEdit) :
  snd (scan_action filepath (edits, true) a) = true.
Proof.
  unfold scan_action.
  destruct (Proto.commands a), (Proto.changes a);
    simpl; auto using scan_change_keeps_flag.
Qed.

Lemma scan_action_commands (filepath : string) (a : Proto.CodeAction)
    (st : list TextEdit * bool) :
  Proto.commands a <> None -> snd (scan_action filepath st a) = true.
Proof.
  intro Hc. destruct st as [edits flag]. unfold scan_action.
  destruct (Proto.commands a); [|congruence].
  destruct (Proto.changes a); simpl; auto using scan_change_keeps_flag.
Qed.

Lemma scan_actions_keep_flag (filepath : string) (actions : list Proto.CodeAction) :
  forall st, snd st = true ->
    snd (fold_left (scan_action filepath) actions st) = true.
Proof.
  induction actions as [|a rest IH]; intros st Hst; simpl; [exact Hst|].
  apply IH. destruct st as [edits flag]. simpl in Hst. subst flag.
  apply scan_action_keeps_flag.
Qed.

Lemma scan_actions_commands (filepath : string) (actions : list Proto.CodeAction)
    (a : Proto.CodeAction) :
  In a actions -> Proto.commands a <> None ->
  forall st, snd (fold_left (scan_action filepath) actions st) = true.
Proof.
  induction actions as [|x rest IH]; intros Hin Hc st; simpl; [contradiction|].
  destruct Hin as [-> | Hin].
  - apply scan_actions_keep_flag. apply scan_action_commands. exact Hc.
  - apply IH; assumption.
Qed.

Lemma strip_action_throws (filepath : string) (a : Proto.CodeAction) (e : JsError) :
  strip_action filepath a = Throw e -> e = TypeError.
Proof.
  unfold strip_action. destruct (Proto.changes a); congruence.
Qed.

Lemma mapM_strip_throws (filepath : string) (actions : list Proto.CodeAction)
    (a : Proto.CodeAction) :
  In a actions -> Proto.changes a = None ->
  mapM (strip_action filepath) actions = Throw TypeError.
Proof.
  induction actions as [|x rest IH]; intros Hin Hc; simpl; [contradiction|].
  destruct Hin as [-> | Hin].
  - unfold strip_action at 1. rewrite Hc. reflexivity.
  - destruct (strip_action filepath x) as [y|e] eqn:E; simpl.
    + rewrite IH by assumption. reflexivity.
    + apply strip_action_throws in E. subst e. reflexivity.
Qed.

(** C10. The splitter is partial: when some action of the list carries
    commands and has no [changes] field, the scanning loop (which guards
    its read of [changes]) marks remaining work, and building the
    deferred command reads [x.changes.filter] on the absent field: the
    call throws a TypeError instead of returning a result. *)
Theorem getCodeActions_absent_changes_throws
    (detail : Proto.CompletionEntryDetails) (filepath : string)
    (actions : list Proto.CodeAction) (a : Proto.CodeAction) :
  Proto.codeActions detail = Some actions ->
  In a actions ->
  Proto.commands a <> None ->
  Proto.changes a = None ->
  getCodeActions detail filepath = Throw TypeError.
Proof.
  intros Hd Hin Hc Hch. unfold getCodeActions. rewrite Hd.
  destruct actions as [|x rest]; [contradiction|].
  pose proof (scan_actions_commands filepath (x :: rest) a Hin Hc ([], false)) as Hflag.
  destruct (fold_left (scan_action filepath) (x :: rest) ([], false)) as [edits flag].
  simpl in Hflag. subst flag.
  rewrite (mapM_strip_throws filepath (x :: rest) a Hin Hch). reflexivity.
Qed.

End CodeActionFacts.

(** An action with an (empty) command list and no [changes]. *)
Lemma getCodeActions_absent_changes_throws_witness :
  let a := {| Proto.description := "Add missing import";
              Proto.changes := None; Proto.commands := Some [] |} in
  @getCodeActions Fixtures.converters (Fixtures.detailWith [a]) "/a.ts" = Throw TypeError.
Proof.
  intro a.
  apply (@getCodeActions_absent_changes_throws Fixtures.converters
           (Fixtures.detailWith [a]) "/a.ts" [a] a).
  - reflexivity.
  - simpl. left. reflexivity.
  - simpl. discriminate.
  - reflexivity.
Defined.

Section CodeActionSplit.
Context `{TypeConverters}.

(** C2, as the code has it. For a list of one action with one change for
    the current file and one change for another file, the splitter
    returns the edits of the current-file change as inline edits (unset
    when that change has no edit) and a deferred command whose payload
    is the action without its current-file change.  Run again on that
    stripped action alone, it returns no inline edits and the same
    deferred command: the other-file change is still remaining work. *)
Theorem getCodeActions_split_and_rerun
    (detail detail' : Proto.CompletionEntryDetails) (filepath : string)
    (a : Proto.CodeAction) (cur other : Proto.FileCodeEdits) :
  Proto.codeActions detail = Some [a] ->
  Proto.changes a = Some [cur; other] \/ Proto.changes a = Some [other; cur] ->
  Proto.fileName cur = filepath ->
  Proto.fileName other <> filepath ->
  let stripped :=
    {| Proto.description := Proto.description a;
       Proto.changes := Some [other];
       Proto.commands := Proto.commands a |} in
  let deferred :=
    {| title := ""; command := ApplyCompletionCodeActionCommand.ID;
       arguments := [[stripped]] |} in
  Proto.codeActions detail' = Some [stripped] ->
  getCodeActions detail filepath =
    Ok {| result_command := Some deferred;
          result_additionalTextEdits :=
            match Proto.textChanges cur with
            | [] => None
            | _ :: _ => Some (map fromCodeEdit (Proto.textChanges cur))
            end |}
  /\ getCodeActions detail' filepath =
    Ok {| result_command := Some deferred; result_additionalTextEdits := None |}.
Proof.
  intros Hd Hch Hcur Hother stripped deferred Hd'.
  apply String.eqb_eq in Hcur. apply String.eqb_neq in Hother.
  assert (Hedits : forall l : list Proto.CodeEdit,
             match map fromCodeEdit l with [] => @None (list TextEdit)
             | _ :: _ => Some (map fromCodeEdit l) end
             = match l with [] => None | _ :: _ => Some (map fromCodeEdit l) end)
    by (intros [|? ?]; reflexivity).
  split.
  - unfold getCodeActions. rewrite Hd. simpl.
    unfold scan_action, strip_action.
    destruct Hch as [-> | ->]; destruct (Proto.commands a) as [cs|] eqn:Hc;
      simpl; rewrite Hcur, Hother; simpl; rewrite ?Hcur, ?Hother; simpl;
      rewrite Hedits; reflexivity.
  - unfold getCodeActions. rewrite Hd'. simpl.
    unfold scan_action, strip_action. simpl.
    destruct (Proto.commands a); simpl; rewrite Hother; simpl;
      rewrite ?Hother; reflexivity.
Qed.

End CodeActionSplit.

(** An import fix that edits the current file [/a.ts] and [/b.ts]. *)
Lemma getCodeActions_split_and_rerun_witness :
  let edit l t :=
    {| Proto.start := {| Proto.line := l; Proto.offset := 1 |};
       Proto.end_ := {| Proto.line := l; Proto.offset := 1 |};
       Proto.newText := t |} in
  let cur := {| Proto.fileName := "/a.ts"; Proto.textChanges := [edit 1 "import b"] |} in
  let other := {| Proto.fileName := "/b.ts"; Proto.textChanges := [edit 3 "export"] |} in
  let a := {| Proto.description := "Import b"; Proto.changes := Some [cur; other];
              Proto.commands := None |} in
  let stripped := {| Proto.description := "Import b"; Proto.changes := Some [other];
                     Proto.commands := None |} in
  let deferred := {| title := ""; command := "_typescript.applyCompletionCodeAction";
                     arguments := [[stripped]] |} in
  @getCodeActions Fixtures.converters (Fixtures.detailWith [a]) "/a.ts" =
    Ok {| result_command := Some deferred;
          result_additionalTextEdits :=
            Some [ {| range := {| start := {| line := 0; character := 0 |};
                                  end_ := {| line := 0; character := 0 |} |};
                      newText := "import b" |} ] |}
  /\ @getCodeActions Fixtures.converters (Fixtures.detailWith [stripped]) "/a.ts" =
    Ok {| result_command := Some deferred; result_additionalTextEdits := None |}.
Proof.
  intros edit cur other a stripped deferred.
  apply (@getCodeActions_split_and_rerun Fixtures.converters
           (Fixtures.detailWith [a]) (Fixtures.detailWith [stripped]) "/a.ts" a cur other).
  - reflexivity.
  - left. reflexivity.
  - reflexivity.
  - simpl. discriminate.
  - reflexivity.
Defined.

(** Running the splitter again on the stripped action does yield a
    deferred command. *)
Lemma getCodeActions_rerun_counterexample :
  let edit l t :=
    {| Proto.start := {| Proto.line := l; Proto.offset := 1 |};
       Proto.end_ := {| Proto.line := l; Proto.offset := 1 |};
       Proto.newText := t |} in
  let cur := {| Proto.fileName := "/a.ts"; Proto.textChanges := [edit 1 "import b"] |} in
  let other := {| Proto.fileName := "/b.ts"; Proto.textChanges := [edit 3 "export"] |} in
  let a := {| Proto.description := "Import b"; Proto.changes := Some [cur; other];
              Proto.commands := None |} in
  let stripped := {| Proto.description := "Import b"; Proto.changes := Some [other];
                     Proto.commands := None |} in
  ~ (forall r,
       @getCodeActions Fixtures.converters (Fixtures.detailWith [a]) "/a.ts" = Ok r ->
       exists payload,
         option_map arguments (result_command r) = Some [[payload]]
         /\ @getCodeActions Fixtures.converters (Fixtures.detailWith [payload]) "/a.ts"
            = Ok {| result_command := None; result_additionalTextEdits := None |}).
Proof.
  intros edit cur other a stripped Hclaim.
  destruct (Hclaim _ eq_refl) as (payload & Hpay & Hrerun).
  injection Hpay as <-. discriminate Hrerun.
Defined.

(** ** Resolution pipeline *)

Section ResolveFacts.
Context `{ITypeScriptServiceClient} `{Previewer} `{TypeConverters}
        `{CompletionItemUtils} {S : Type} `{SnippetString S}.
Variable currentLine : option string.

(** C1, as the code has it. For an item that carries its correlation
    data: when the file identity does not resolve to a path the call
    returns [undefined] and leaves the item as it was; when the path
    resolves and the detail request fails, or its answer is empty or
    malformed, the call returns the item itself, no field modified. *)
Theorem resolve_degrades (item : CompletionItem.t) (d : ItemData) :
  CompletionItem.data item = Some d ->
  (Js.truthy (toPath (uri d)) = false ->
   resolveCompletionItem (S := S) currentLine (Some item) = Resolved None)
  /\ (forall filepath,
        toPath (uri d) = Some filepath -> filepath <> "" ->
        Spec.NoDetail (execute_completionEntryDetails (detailsArgs filepath d)) ->
        resolveCompletionItem (S := S) currentLine (Some item) = Resolved (Some item)).
Proof.
  intro Hd. unfold resolveCompletionItem. rewrite Hd. split.
  - unfold Js.truthy. destruct (toPath (uri d)) as [fp|]; [|reflexivity].
    destruct (String.eqb fp ""); [reflexivity | discriminate].
  - intros filepath -> Hne Hno.
    apply String.eqb_neq in Hne. rewrite Hne.
    inversion Hno; reflexivity.
Qed.

Lemma enrich_keeps_insertText
    (item : CompletionItem.t) (d : ItemData) (filepath : string)
    (previousInsert : option string) (detail : Proto.CompletionEntryDetails) :
  isSnippet d = true ->
  CompletionItem.insertText
    (item_after item (enrich (S := S) currentLine item d filepath previousInsert detail))
  = CompletionItem.insertText item.
Proof.
  intro Hs. unfold enrich. rewrite Hs. simpl.
  destruct (getCodeActions detail filepath) as [actions|e]; simpl.
  - destruct (result_command actions);
      destruct (negb (Js.truthy (CompletionItem.detail item))
                && negb (List.length (Proto.displayParts detail) =? 0));
      reflexivity.
  - destruct (negb (Js.truthy (CompletionItem.detail item))
              && negb (List.length (Proto.displayParts detail) =? 0));
      reflexivity.
Qed.

(** C3. For an item whose correlation data already has [isSnippet] set,
    a call of [resolveCompletionItem] leaves the insertion text of the
    item as it was, whatever the server answers: no snippet is
    synthesized again. *)
Theorem resolve_keeps_insertText_when_isSnippet
    (item : CompletionItem.t) (d : ItemData) :
  CompletionItem.data item = Some d ->
  isSnippet d = true ->
  CompletionItem.insertText (item_after item (resolveCompletionItem (S := S) currentLine (Some item)))
  = CompletionItem.insertText item.
Proof.
  intros Hd Hs. unfold resolveCompletionItem. rewrite Hd.
  destruct (toPath (uri d)) as [filepath|]; [|reflexivity].
  destruct (String.eqb filepath ""); [reflexivity|].
  match goal with |- context [execute_completionEntryDetails ?a] =>
    destruct (execute_completionEntryDetails a) as [[[[|[detail|] rest]|] m| |]|e]
  end; try reflexivity.
  apply enrich_keeps_insertText. exact Hs.
Qed.

End ResolveFacts.

(** An item of a document that has no path ([untitled:1]) resolves to
    [undefined]; an item of [file:///a.ts] whose detail request fails, or is
    answered by an empty list, resolves to itself. *)
Lemma resolve_degrades_witness :
  let lost := ResolveExamples.itemFor "untitled:1" false in
  let item := ResolveExamples.itemFor "file:///a.ts" false in
  ResolveExamples.resolveWith (Throw (Error "timeout")) (Some lost) = Resolved None
  /\ ResolveExamples.resolveWith (Throw (Error "timeout")) (Some item)
     = Resolved (Some item)
  /\ ResolveExamples.resolveWith
       (Ok (ServerResponse.Response (Some []) None)) (Some item)
     = Resolved (Some item).
Proof.
  intros lost item. unfold ResolveExamples.resolveWith. split; [|split].
  - eapply resolve_degrades; reflexivity.
  - eapply resolve_degrades with (filepath := "/a.ts");
      [reflexivity | reflexivity | discriminate | constructor].
  - eapply resolve_degrades with (filepath := "/a.ts");
      [reflexivity | reflexivity | discriminate | constructor].
Defined.

(** The file identity [untitled:1] has no path: the call returns
    [undefined], not the item. *)
Lemma resolve_unresolved_path_counterexample :
  let lost := ResolveExamples.itemFor "untitled:1" false in
  Fixtures.fileScheme "untitled:1" = None
  /\ ResolveExamples.resolveWith
       (Ok (ServerResponse.Response (Some [Some ResolveExamples.readFileDetail]) None))
       (Some lost)
     <> Resolved (Some lost).
Proof.
  intro lost. split; [reflexivity | discriminate].
Qed.

(** An item already marked [isSnippet] keeps its insertion text when the
    server answers with the detail of a function. *)
Lemma resolve_keeps_insertText_when_isSnippet_witness :
  let item := ResolveExamples.itemFor "file:///a.ts" true in
  CompletionItem.insertText
    (item_after item
       (ResolveExamples.resolveWith
          (Ok (ServerResponse.Response (Some [Some ResolveExamples.readFileDetail]) None))
          (Some item)))
  = Some "readFile".
Proof.
  intro item. unfold ResolveExamples.resolveWith.
  erewrite resolve_keeps_insertText_when_isSnippet; reflexivity.
Defined.

(** ** Accessor range of member completions *)

Section DotAccessor.

Lemma match_suffix_singleton (r : Regex.regex) (s : string) (m : list string) :
  Regex.match_suffix r s = Some m -> List.length m = 1.
Proof.
  unfold Regex.match_suffix.
  destruct (Regex.leftmost_suffix r (list_ascii_of_string s)); intros [= <-];
    reflexivity.
Qed.

Lemma leftmost_suffix_nil (r : Regex.regex) :
  Regex.nullable r = false -> Regex.leftmost_suffix r [] = None.
Proof. intro Hn. simpl. rewrite Hn. reflexivity. Qed.

Lemma slice_to_zero (s : string) : Js.slice_to 0 s = "".
Proof. destruct s; reflexivity. Qed.

(** A match needs at least one character before the cursor. *)
Lemma dotAccessor_match_character (n : nat) (preText : string) (m : list string) :
  Regex.match_suffix Patterns.dotAccessor (Js.slice_to n preText) = Some m ->
  1 <= n.
Proof.
  destruct n as [|n]; [|lia].
  rewrite slice_to_zero. unfold Regex.match_suffix. simpl. discriminate.
Qed.

(** Whatever the matched text, the range the code builds starts one
    character before the cursor. *)
Lemma memberDotAccessorContext_width
    (document : LinesTextDocument) (position : Position) (preText : string)
    (ctx : DotAccessorContext) :
  memberDotAccessorContext document position preText = Some ctx ->
  end_ (dot_range ctx) = position
  /\ line (start (dot_range ctx)) = line position
  /\ character (start (dot_range ctx)) + 1 = character position.
Proof.
  unfold memberDotAccessorContext.
  destruct (Regex.match_suffix Patterns.dotAccessor
              (Js.slice_to (character position) preText)) as [m|] eqn:E;
    [|discriminate].
  intros [= <-]. simpl.
  pose proof (match_suffix_singleton _ _ E) as Hlen.
  pose proof (dotAccessor_match_character _ _ E) as Hpos.
  rewrite Hlen. repeat split. lia.
Qed.

(** C4, at the input [a?.] with the cursor after the dot. The pattern
    matches the two characters [?.], but the range the code attaches
    covers one character and its text is [.]: the start is moved back by
    the length of the match array, not of the matched text. *)
Theorem memberDotAccessorContext_optional_chain :
  let document := Fixtures.document ["a?."] in
  let position := {| line := 0; character := 3 |} in
  Regex.match_suffix Patterns.dotAccessor "a?." = Some ["?."]
  /\ memberDotAccessorContext document position "a?." =
     Some {| dot_range :=
               {| start := {| line := 0; character := 2 |};
                  end_ := {| line := 0; character := 3 |} |};
             dot_text := "." |}.
Proof. split; reflexivity. Qed.

End DotAccessor.

(** ** The list request as a whole *)

Section ProvideFacts.
Context `{ITypeScriptServiceClient} `{Workspace} `{TypingsStatus}
        `{FileConfigurationManager} `{TypeConverters} `{CompletionItemUtils}.
Variable lang : string.

(** An accessor context comes with a member completion only, and is one
    character wide. *)
Lemma roundTrip_dotAccessorContext
    (document : LinesTextDocument) (position : Position) (preText : string)
    (args : Proto.CompletionsRequestArgs) (rt : RoundTrip) (ctx : DotAccessorContext) :
  roundTrip document position preText args = Ok (Some rt) ->
  rt_dotAccessorContext rt = Some ctx ->
  rt_isMemberCompletion rt = true
  /\ memberDotAccessorContext document position preText = Some ctx
  /\ character (start (dot_range ctx)) + 1 = character position.
Proof.
  unfold roundTrip. intros Hrt Hctx.
  destruct (API.gte apiVersion API.v300).
  - destruct (execute_completionInfo args) as [[[body|] m| |]|e]; try discriminate.
    + injection Hrt as <-. simpl in *.
      destruct (Proto.isMemberCompletion body); [|discriminate].
      repeat split; auto.
      apply (memberDotAccessorContext_width _ _ _ Hctx).
    + destruct e as [|msg]; try discriminate.
      destruct (String.eqb msg "No content available."); discriminate.
  - destruct (execute_completions args) as [[[body|] m| |]|e]; try discriminate.
    injection Hrt as <-. discriminate.
Qed.

(** The items of a list are the converted entries of the round trip that
    the filter keeps, in their order. *)
Lemma provideCompletionItems_items
    (currentLine : option string) (document : LinesTextDocument)
    (position : Position) (context : CompletionContext) (l : CompletionList) :
  isAcquiringTypings = false ->
  snd (provideCompletionItems lang currentLine document position context) = Ok (Some l) ->
  exists preText args rt convert,
    roundTrip document position preText args = Ok (Some rt)
    /\ isIncomplete l = rt_isIncomplete rt
    /\ items l =
       map convert
         (filter
            (fun e => negb (Spec.drops
               (CompletionConfiguration.getConfigurationForResource lang (doc_uri document)) e))
            (rt_entries rt)).
Proof.
  unfold provideCompletionItems. intros -> Hres.
  destruct (toPath (doc_uri document)) as [file|]; [|discriminate].
  destruct (String.eqb file ""); [discriminate|].
  destruct (negb (shouldTrigger _ _ _ _)); [discriminate|].
  simpl in Hres.
  destruct (ensureConfigurationForDocument document) as [[]|e]; [|discriminate].
  simpl in Hres.
  match type of Hres with
  | context [roundTrip ?d ?p ?t ?a] =>
      destruct (roundTrip d p t a) as [[rt|]|e] eqn:Hrt; try discriminate;
      exists t, a, rt
  end.
  simpl in Hres. injection Hres as <-. simpl.
  eexists. split; [exact Hrt|]. split; [reflexivity|].
  apply collectItems_is_filter.
Qed.

End ProvideFacts.

(** ** Worked examples *)

(** A warning entry is dropped when name suggestions are off. *)
Example provide_drops_warning :
  Fixtures.labelsOf
    (Fixtures.provideWith (API.mk 4 5 0) (Fixtures.workspaceWithout "suggest.names")
       (Fixtures.infoOf false [Fixtures.entry "foo" "warning"; Fixtures.entry "bar" "function"])
       ["ba"] {| line := 0; character := 2 |}
       {| triggerCharacter := None; option_ := {| synname := None |} |})
  = Some ["bar"].
Proof. reflexivity. Qed.

(** With the defaults the warning entry stays, before the other one. *)
Example provide_keeps_warning :
  Fixtures.labelsOf
    (Fixtures.provideWith (API.mk 4 5 0) Fixtures.workspace
       (Fixtures.infoOf false [Fixtures.entry "foo" "warning"; Fixtures.entry "bar" "function"])
       ["ba"] {| line := 0; character := 2 |}
       {| triggerCharacter := None; option_ := {| synname := None |} |})
  = Some ["foo"; "bar"].
Proof. reflexivity. Qed.

(** A space after [import] triggers on a server older than 4.3.0; a space
    after [import foo] does not, and neither does any space on 4.3.0. *)
Example shouldTrigger_import :
  let c v := Fixtures.client v Fixtures.fileScheme
               (Ok ServerResponse.NoContent) (Ok ServerResponse.NoContent)
               (Ok ServerResponse.NoContent) in
  let cfg := @CompletionConfiguration.getConfigurationForResource
               Fixtures.workspace "typescript" "file:///a.ts" in
  let hint := {| synname := None |} in
  @shouldTrigger (c (API.mk 4 2 0)) (Some " ") "import " hint cfg = true
  /\ @shouldTrigger (c (API.mk 4 2 0)) (Some " ") "import foo " hint cfg = false
  /\ @shouldTrigger (c (API.mk 4 2 0)) (Some " ") "Import " hint cfg = false
  /\ @shouldTrigger (c (API.mk 4 3 0)) (Some " ") "import " hint cfg = false.
Proof. repeat split. Qed.

(** A first resolution builds the call snippet and sets [isSnippet]. *)
Example resolve_synthesizes_once :
  let item := ResolveExamples.itemFor "file:///a.ts" false in
  let answer :=
    Ok (ServerResponse.Response (Some [Some ResolveExamples.readFileDetail]) None) in
  let after := item_after item (ResolveExamples.resolveWith answer (Some item)) in
  CompletionItem.insertText after = Some "readFile(${1:path})$0"
  /\ option_map isSnippet (CompletionItem.data after) = Some true
  /\ option_map value (CompletionItem.documentation after) = Some "Reads a file."
  /\ CompletionItem.insertText
       (item_after after (ResolveExamples.resolveWith answer (Some after)))
     = Some "readFile(${1:path})$0".
Proof. repeat split. Qed.

(** ** Resolving twice *)

Section ResolveTwice.
Context `{ITypeScriptServiceClient} `{Previewer} `{TypeConverters}
        `{CompletionItemUtils} {S : Type} `{SnippetString S}.
Variable currentLine : option string.

Lemma enrich_skips
    (item : CompletionItem.t) (d : ItemData) (filepath : string)
    (previousInsert : option string) (detail : Proto.CompletionEntryDetails) :
  skips_synthesis item d filepath detail ->
  let item1 :=
    item_after item (enrich (S := S) currentLine item d filepath previousInsert detail) in
  CompletionItem.insertText item1 = CompletionItem.insertText item
  /\ CompletionItem.insertTextFormat item1 = CompletionItem.insertTextFormat item
  /\ CompletionItem.data item1 = CompletionItem.data item.
Proof.
  intros Hskip. unfold enrich.
  destruct (getCodeActions detail filepath) as [actions|e] eqn:Ha.
  - assert (Hcond :
      negb (isSnippet d)
      && match CompletionItem.insertTextFormat item with
         | Some f => InsertTextFormat.eqb f InsertTextFormat.Snippet
         | None => false
         end = false).
    { destruct Hskip as [Hs | [Hf | [e He]]]; [| |congruence].
      - rewrite Hs. reflexivity.
      - destruct (CompletionItem.insertTextFormat item) as [[|]|];
          try congruence; apply andb_false_r. }
    destruct (negb (Js.truthy (CompletionItem.detail item))
              && negb (List.length (Proto.displayParts detail) =? 0));
      destruct (result_command actions); simpl; rewrite Hcond; simpl; auto.
  - destruct (negb (Js.truthy (CompletionItem.detail item))
              && negb (List.length (Proto.displayParts detail) =? 0));
      simpl; auto.
Qed.

Lemma enrich_marks_or_skips
    (item : CompletionItem.t) (d : ItemData) (filepath : string)
    (previousInsert : option string) (detail : Proto.CompletionEntryDetails) :
  CompletionItem.data item = Some d ->
  let item1 :=
    item_after item (enrich (S := S) currentLine item d filepath previousInsert detail) in
  CompletionItem.insertTextFormat item1 = CompletionItem.insertTextFormat item
  /\ (CompletionItem.data item1 = Some (mark_isSnippet d)
      \/ (CompletionItem.data item1 = Some d
          /\ skips_synthesis item d filepath detail)).
Proof.
  intros Hd item1.
  assert (Hwhen : skips_synthesis item d filepath detail ->
            CompletionItem.insertTextFormat item1 = CompletionItem.insertTextFormat item
            /\ (CompletionItem.data item1 = Some (mark_isSnippet d)
                \/ (CompletionItem.data item1 = Some d
                    /\ skips_synthesis item d filepath detail))).
  { intro Hskip.
    destruct (@enrich_skips item d filepath previousInsert detail Hskip)
      as (_ & Hf & Hdata).
    split; [exact Hf|]. right. split; [|exact Hskip].
    subst item1. rewrite Hdata. exact Hd. }
  destruct (isSnippet d) eqn:Hs.
  { apply Hwhen. left. exact Hs. }
  destruct (getCodeActions detail filepath) as [actions|e] eqn:Ha.
  2:{ apply Hwhen. right. right. eauto. }
  destruct (CompletionItem.insertTextFormat item) as [[|]|] eqn:Hfmt.
  1,3: apply Hwhen; right; left; congruence.
  clear Hwhen. subst item1. unfold enrich. rewrite Ha, Hs.
  destruct (negb (Js.truthy (CompletionItem.detail item))
            && negb (List.length (Proto.displayParts detail) =? 0));
    destruct (result_command actions); simpl; rewrite Hfmt; simpl;
    destruct (isValidFunctionCompletionContext currentLine filepath (position d))
      as [[|]|e]; simpl;
    try match goal with |- context [loose_eq ?a ?b] => destruct (loose_eq a b) end;
    simpl; auto.
Qed.

End ResolveTwice.



(** A resolution that came back empty-handed does not protect the item:
    when the server fails the first request and answers the second, the
    second resolution builds the snippet. *)
Example resolve_after_failure_synthesizes :
  let item := ResolveExamples.itemFor "file:///a.ts" false in
  let answer :=
    Ok (ServerResponse.Response (Some [Some ResolveExamples.readFileDetail]) None) in
  let item1 :=
    item_after item (ResolveExamples.resolveWith (Throw (Error "timeout")) (Some item)) in
  CompletionItem.insertText item1 = Some "readFile"
  /\ CompletionItem.insertText
       (item_after item1 (ResolveExamples.resolveWith answer (Some item1)))
     = Some "readFile(${1:path})$0".
Proof. split; reflexivity. Qed.

(** The placeholder item of a list request made while typings are being
    acquired carries no correlation data: resolving it rejects. *)
Example resolve_acquiringTypingsItem :
  ResolveExamples.resolveWith (Ok ServerResponse.NoContent) (Some acquiringTypingsItem)
  = Rejected TypeError acquiringTypingsItem.
Proof. reflexivity. Qed.

(** A detail whose code action has commands and no [changes] makes the
    resolution reject. *)
Example resolve_rejects_on_absent_changes :
  let item := ResolveExamples.itemFor "file:///a.ts" false in
  let action := {| Proto.description := "Fix"; Proto.changes := None;
                   Proto.commands := Some ["organizeImports"] |} in
  ResolveExamples.resolveWith
    (Ok (ServerResponse.Response (Some [Some (Fixtures.detailWith [action])]) None))
    (Some item)
  = Rejected TypeError item.
Proof. reflexivity. Qed.

(** * Further properties *)

(** ** The shape of the texts the patterns match *)

Module RegexShapes.
Import Regex RegexFacts.

Lemma matches_chr (p : ascii -> bool) (s : list ascii) :
  matches (Chr p) s <-> exists c, s = [c] /\ p c = true.
Proof.
  split.
  - intro Hm. inversion Hm; subst. eauto.
  - intros (c & -> & Hp). constructor. exact Hp.
Qed.

Lemma matches_cat (r1 r2 : regex) (s : list ascii) :
  matches (Cat r1 r2) s <->
  exists s1 s2, s = s1 ++ s2 /\ matches r1 s1 /\ matches r2 s2.
Proof.
  split.
  - intro Hm. inversion Hm; subst. eauto.
  - intros (s1 & s2 & -> & H1 & H2). constructor; assumption.
Qed.

Lemma matches_opt (r : regex) (s : list ascii) :
  matches (Opt r) s <-> matches r s \/ s = [].
Proof.
  unfold Opt. split.
  - intro Hm. inversion Hm as [| | |? ? ? Hl|? ? ? Hr| |]; subst; auto.
    inversion Hr. auto.
  - intros [Hm | ->]; [apply MAltL; exact Hm | apply MAltR; constructor].
Qed.

Lemma matches_lit (c : ascii) (s : list ascii) :
  matches (lit c) s <-> s = [c].
Proof.
  unfold lit. rewrite matches_chr. split.
  - intros (x & -> & E). apply Ascii.eqb_eq in E. subst x. reflexivity.
  - intros ->. exists c. split; [reflexivity | apply Ascii.eqb_refl].
Qed.

Lemma matches_star_chr (p : ascii -> bool) (s : list ascii) :
  matches (Star (Chr p)) s <-> forallb p s = true.
Proof.
  split.
  - intro Hm. remember (Star (Chr p)) as r eqn:Hr.
    induction Hm as [| | | | | r'|r' s1 s2 H1 IH1 H2 IH2]; try discriminate.
    + reflexivity.
    + injection Hr as ->. apply matches_chr in H1 as (c & -> & Hp).
      simpl. rewrite Hp. apply IH2. reflexivity.
  - induction s as [|c s IH]; simpl; intro Hall.
    + constructor.
    + apply andb_true_iff in Hall as [Hp Hall].
      change (c :: s) with ([c] ++ s).
      constructor; [constructor; exact Hp | apply IH; exact Hall].
Qed.

(** [/\s\.$/]: the text ends with a white-space character and a dot. *)
Lemma spaceDot_shape (s : string) :
  test Patterns.spaceDot s = true <->
  exists p c, list_ascii_of_string s = p ++ [c; "."%char] /\ Js.is_space c = true.
Proof.
  unfold test, Patterns.spaceDot. simpl.
  split.
  - intro Ht.
    destruct (leftmost_suffix (Cat space (lit ".")) (list_ascii_of_string s))
      as [m|] eqn:E; [|discriminate].
    destruct (proj1 (leftmost_suffix_some_iff _ _) (ex_intro _ m E))
      as (s0 & s1 & Heq & Hm).
    apply matches_cat in Hm as (a & b & -> & Ha & Hb).
    apply matches_chr in Ha as (c & -> & Hc). apply matches_lit in Hb. subst b.
    exists s0, c. auto.
  - intros (p & c & Heq & Hc).
    destruct (proj2 (leftmost_suffix_some_iff (Cat space (lit "."))
                       (list_ascii_of_string s))) as [m ->]; [|reflexivity].
    exists p, [c; "."%char]. split; [exact Heq|].
    apply matches_cat. exists [c], ["."%char]. split; [reflexivity|].
    split; [apply matches_chr; eauto | apply matches_lit; reflexivity].
Qed.

(** [/^\.$/]: the text is a dot. *)
Lemma loneDot_shape (s : string) :
  test Patterns.loneDot s = true <-> list_ascii_of_string s = ["."%char].
Proof.
  unfold test, Patterns.loneDot. cbn [anchor_start anchor_end body].
  rewrite accepts_iff. apply matches_lit.
Qed.

(** [/\??\.\s*$/]: the text ends with a dot and white space after it. *)
Lemma dotAccessor_shape (s : string) :
  (exists m, match_suffix Patterns.dotAccessor s = Some m) <->
  exists p ws, list_ascii_of_string s = p ++ "."%char :: ws
               /\ forallb Js.is_space ws = true.
Proof.
  assert (Hsome : (exists m, match_suffix Patterns.dotAccessor s = Some m) <->
                  exists m, leftmost_suffix Patterns.dotAccessor
                              (list_ascii_of_string s) = Some m).
  { unfold match_suffix.
    destruct (leftmost_suffix Patterns.dotAccessor (list_ascii_of_string s));
      split; intros [m Hm]; try discriminate; eauto. }
  rewrite Hsome, leftmost_suffix_some_iff. unfold Patterns.dotAccessor.
  split.
  - intros (s0 & s1 & Heq & Hm).
    apply matches_cat in Hm as (a & bc & -> & Ha & Hbc).
    apply matches_cat in Hbc as (b & c & -> & Hb & Hc).
    apply matches_lit in Hb. subst b.
    apply matches_star_chr in Hc.
    exists (s0 ++ a), c. split; [|exact Hc].
    rewrite Heq, <- app_assoc. reflexivity.
  - intros (p & ws & Heq & Hws).
    exists p, ("."%char :: ws). split; [exact Heq|].
    apply matches_cat. exists [], ("."%char :: ws). split; [reflexivity|].
    split; [apply matches_opt; auto|].
    apply matches_cat. exists ["."%char], ws. split; [reflexivity|].
    split; [apply matches_lit; reflexivity | apply matches_star_chr; exact Hws].
Qed.

(** [/^[a-z_$0-9]*\s*\(/gi]: identifier characters, white space, and an
    opening parenthesis. *)
Lemma callStart_shape (s : string) :
  test Patterns.callStart s = true <->
  exists a b rest,
    list_ascii_of_string s = a ++ b ++ "("%char :: rest
    /\ forallb Patterns.identifierChar a = true
    /\ forallb Js.is_space b = true.
Proof.
  unfold test, Patterns.callStart. cbn [anchor_start anchor_end body].
  rewrite accepts_prefix_iff. split.
  - intros (s1 & s2 & Heq & Hm).
    apply matches_cat in Hm as (a & bc & -> & Ha & Hbc).
    apply matches_cat in Hbc as (b & c & -> & Hb & Hc).
    apply matches_lit in Hc. subst c.
    apply matches_star_chr in Ha. apply matches_star_chr in Hb.
    exists a, b, s2. split; [|auto].
    rewrite Heq, <- !app_assoc. reflexivity.
  - intros (a & b & rest & Heq & Ha & Hb).
    exists (a ++ b ++ ["("%char]), rest. split.
    + rewrite Heq, <- !app_assoc. reflexivity.
    + apply matches_cat. exists a, (b ++ ["("%char]). split; [reflexivity|].
      split; [apply matches_star_chr; exact Ha|].
      apply matches_cat. exists b, ["("%char]. split; [reflexivity|].
      split; [apply matches_star_chr; exact Hb | apply matches_lit; reflexivity].
Qed.

End RegexShapes.

(** ** Trigger gate and request builder *)

Section TriggerGateMore.
Context `{ITypeScriptServiceClient}.

Lemma is_char_eq (t : option string) (c : string) :
  is_char t c = true -> t = Some c.
Proof.
  destruct t as [s|]; simpl; [|discriminate].
  intro E. apply String.eqb_eq in E. congruence.
Qed.

(** X1. Below version 2.9.0 the character ['@'] triggers exactly when the
    syntax hint names a string region or the text before the cursor
    matches [/^\s*\*[ ]?@/] or [/\/\*\*+[ ]?@/]. *)
Theorem shouldTrigger_at_legacy
    (pre : string) (opt : CompleteOption) (configuration : CompletionConfiguration.t) :
  API.lt apiVersion API.v290 = true ->
  shouldTrigger (Some "@") pre opt configuration =
  inStringSyntax opt
  || Regex.test Patterns.jsdocLine pre
  || Regex.test Patterns.jsdocOpen pre.
Proof.
  intro Hlt. unfold shouldTrigger, legacyTrigger. simpl. rewrite Hlt.
  destruct (inStringSyntax opt), (Regex.test Patterns.jsdocLine pre),
    (Regex.test Patterns.jsdocOpen pre); reflexivity.
Qed.

(** X2. The gate only ever rejects three trigger characters: ['@'] and
    ['<'], and those below version 2.9.0 only, and the space.  A request
    without trigger character, or triggered by any other character, is
    accepted at every version. *)
Theorem shouldTrigger_rejects_only
    (t : option string) (pre : string) (opt : CompleteOption)
    (configuration : CompletionConfiguration.t) :
  shouldTrigger t pre opt configuration = false ->
  (API.lt apiVersion API.v290 = true /\ (t = Some "@" \/ t = Some "<"))
  \/ t = Some " ".
Proof.
  unfold shouldTrigger, legacyTrigger.
  destruct (Js.truthy t && API.lt apiVersion API.v290) eqn:Hlegacy.
  - apply andb_true_iff in Hlegacy as [_ Hlt].
    destruct (is_char t "@") eqn:Hat.
    + intros _. left. split; [exact Hlt|]. left. apply is_char_eq. exact Hat.
    + destruct (is_char t "<") eqn:Hless.
      * intros _. left. split; [exact Hlt|]. right. apply is_char_eq. exact Hless.
      * destruct (is_char t " ") eqn:Hsp; [|discriminate].
        intros _. right. apply is_char_eq. exact Hsp.
  - destruct (is_char t " ") eqn:Hsp; [|discriminate].
    intros _. right. apply is_char_eq. exact Hsp.
Qed.

(** X3. A space is never forwarded to the server: when the gate lets a
    space through (the version is below 4.3.0), [getTsTriggerCharacter]
    withholds it. *)
Theorem space_never_forwarded
    (context : CompletionContext) (pre : string)
    (configuration : CompletionConfiguration.t) :
  triggerCharacter context = Some " " ->
  shouldTrigger (triggerCharacter context) pre (option_ context) configuration = true ->
  getTsTriggerCharacter context = None.
Proof.
  intros Hc. unfold shouldTrigger, getTsTriggerCharacter. rewrite Hc.
  rewrite legacyTrigger_space. simpl.
  unfold API.lt at 1.
  destruct (API.gte apiVersion API.v430); simpl.
  - rewrite orb_true_r. discriminate.
  - reflexivity.
Qed.

(** X4. What [getTsTriggerCharacter] forwards is the trigger character of
    the context, and one of the provider's nine trigger characters. *)
Theorem getTsTriggerCharacter_forwards (context : CompletionContext) (c : string) :
  getTsTriggerCharacter context = Some c ->
  triggerCharacter context = Some c /\ In c triggerCharacters.
Proof.
  unfold getTsTriggerCharacter, triggerCharacters.
  destruct (is_char (triggerCharacter context) "@") eqn:E1.
  { apply is_char_eq in E1. rewrite E1.
    destruct (API.gte apiVersion API.v310 && API.lt apiVersion API.v320);
      [discriminate|]. intros [= <-]. split; [reflexivity|]. simpl.
    repeat first [left; reflexivity | right]. }
  destruct (is_char (triggerCharacter context) "#") eqn:E2.
  { apply is_char_eq in E2. rewrite E2.
    destruct (API.lt apiVersion API.v381); [discriminate|].
    intros [= <-]. split; [reflexivity|]. simpl.
    repeat first [left; reflexivity | right]. }
  destruct (is_char (triggerCharacter context) " ") eqn:E3.
  { apply is_char_eq in E3. rewrite E3.
    destruct (API.gte apiVersion API.v430); [|discriminate].
    intros [= <-]. split; [reflexivity|]. simpl.
    repeat first [left; reflexivity | right]. }
  destruct (is_char (triggerCharacter context) ".") eqn:E4.
  { apply is_char_eq in E4. simpl. rewrite E4. intros [= <-]. split; [reflexivity|]. simpl.
    repeat first [left; reflexivity | right]. }
  destruct (is_char (triggerCharacter context) doubleQuote) eqn:E5.
  { apply is_char_eq in E5. simpl. rewrite E5. intros [= <-]. split; [reflexivity|]. simpl.
    repeat first [left; reflexivity | right]. }
  destruct (is_char (triggerCharacter context) "'") eqn:E6.
  { apply is_char_eq in E6. simpl. rewrite E6. intros [= <-]. split; [reflexivity|]. simpl.
    repeat first [left; reflexivity | right]. }
  destruct (is_char (triggerCharacter context) "`") eqn:E7.
  { apply is_char_eq in E7. simpl. rewrite E7. intros [= <-]. split; [reflexivity|]. simpl.
    repeat first [left; reflexivity | right]. }
  destruct (is_char (triggerCharacter context) "/") eqn:E8.
  { apply is_char_eq in E8. simpl. rewrite E8. intros [= <-]. split; [reflexivity|]. simpl.
    repeat first [left; reflexivity | right]. }
  destruct (is_char (triggerCharacter context) "<") eqn:E9.
  { apply is_char_eq in E9. simpl. rewrite E9. intros [= <-]. split; [reflexivity|]. simpl.
    repeat first [left; reflexivity | right]. }
  simpl. discriminate.
Qed.

(** X5. [isInValidCommitCharacterContext] answers false exactly when the
    version is below 3.2.0, the cursor is past the second column, and the
    text before it is a dot or ends with a white-space character and a
    dot. *)
Theorem isInValidCommitCharacterContext_false_iff
    (document : LinesTextDocument) (position : Position) :
  let preText :=
    getText document
      {| start := {| line := line position; character := 0 |};
         end_ := {| line := line position; character := character position |} |} in
  isInValidCommitCharacterContext document position = false <->
  API.lt apiVersion API.v320 = true
  /\ 1 < character position
  /\ (list_ascii_of_string preText = ["."%char]
      \/ exists p c, list_ascii_of_string preText = p ++ [c; "."%char]
                     /\ Js.is_space c = true).
Proof.
  intro preText. unfold isInValidCommitCharacterContext. fold preText.
  rewrite <- RegexShapes.loneDot_shape, <- RegexShapes.spaceDot_shape.
  destruct (API.lt apiVersion API.v320); simpl.
  - destruct (Nat.ltb_spec 1 (character position)) as [Hgt|Hle].
    + rewrite negb_false_iff, orb_true_iff. intuition.
    + split; [discriminate|]. intros (_ & Hgt & _). lia.
  - split; [discriminate|]. intros (Hf & _). discriminate.
Qed.

End TriggerGateMore.

(** At version 2.8.0 an ['@'] typed on a documentation-comment line
    triggers. *)
Lemma shouldTrigger_at_legacy_witness :
  let c := Fixtures.client (API.mk 2 8 0) Fixtures.fileScheme
             (Ok ServerResponse.NoContent) (Ok ServerResponse.NoContent)
             (Ok ServerResponse.NoContent) in
  let cfg := @CompletionConfiguration.getConfigurationForResource
               Fixtures.workspace "typescript" "file:///a.ts" in
  @shouldTrigger c (Some "@") " * @" {| synname := Some "Comment" |} cfg = true.
Proof.
  intros c cfg.
  rewrite (@shouldTrigger_at_legacy c " * @" {| synname := Some "Comment" |} cfg);
    reflexivity.
Defined.

(** At version 4.2.0 a space after [import foo] is rejected: it is the
    space that is rejected. *)
Lemma shouldTrigger_rejects_only_witness :
  let c := Fixtures.client (API.mk 4 2 0) Fixtures.fileScheme
             (Ok ServerResponse.NoContent) (Ok ServerResponse.NoContent)
             (Ok ServerResponse.NoContent) in
  let cfg := @CompletionConfiguration.getConfigurationForResource
               Fixtures.workspace "typescript" "file:///a.ts" in
  @shouldTrigger c (Some " ") "import foo " {| synname := None |} cfg = false
  /\ ((@API.lt (@apiVersion c) API.v290 = true
       /\ (Some " " = Some "@" \/ Some " " = Some "<"))
      \/ Some " " = Some " ").
Proof.
  intros c cfg. split; [reflexivity|].
  apply (@shouldTrigger_rejects_only c (Some " ") "import foo "
           {| synname := None |} cfg).
  reflexivity.
Defined.

(** At version 4.2.0 the space after [import] passes the gate and is not
    forwarded. *)
Lemma space_never_forwarded_witness :
  let c := Fixtures.client (API.mk 4 2 0) Fixtures.fileScheme
             (Ok ServerResponse.NoContent) (Ok ServerResponse.NoContent)
             (Ok ServerResponse.NoContent) in
  @getTsTriggerCharacter c
    {| triggerCharacter := Some " "; option_ := {| synname := None |} |} = None.
Proof.
  intro c.
  apply (@space_never_forwarded c
           {| triggerCharacter := Some " "; option_ := {| synname := None |} |}
           "import "
           (@CompletionConfiguration.getConfigurationForResource
              Fixtures.workspace "typescript" "file:///a.ts"));
    reflexivity.
Defined.

(** At version 4.5.0 an ['@'] is forwarded as it is. *)
Lemma getTsTriggerCharacter_forwards_witness :
  let c := Fixtures.client (API.mk 4 5 0) Fixtures.fileScheme
             (Ok ServerResponse.NoContent) (Ok ServerResponse.NoContent)
             (Ok ServerResponse.NoContent) in
  let context := {| triggerCharacter := Some "@"; option_ := {| synname := None |} |} in
  @getTsTriggerCharacter c context = Some "@"
  /\ (triggerCharacter context = Some "@" /\ In "@" triggerCharacters).
Proof.
  intros c context. split; [reflexivity|].
  apply (@getTsTriggerCharacter_forwards c context "@").
  reflexivity.
Defined.

(** ** Call-completion eligibility *)

Section FunctionContext.
Context `{ITypeScriptServiceClient} `{TypeConverters}.

(** X6. Whether a call snippet may be inserted is decided by the text
    after the cursor on the line of the last list request.  If that text
    starts with identifier characters, white space and an opening
    parenthesis, the answer is no, whatever quickinfo says.  Otherwise,
    unless quickinfo answers with the kind of a variable, constant or
    alias, the answer is yes: a failed or empty quickinfo request does not
    stand in the way. *)
Theorem isValidFunctionCompletionContext_by_text
    (l filepath : string) (position : Position) :
  let after := list_ascii_of_string (Js.slice_from (character position) l) in
  let callStarted :=
    exists a b rest,
      after = a ++ b ++ "("%char :: rest
      /\ forallb Patterns.identifierChar a = true
      /\ forallb Js.is_space b = true in
  (callStarted ->
   isValidFunctionCompletionContext (Some l) filepath position = Ok false)
  /\ ((forall body m,
         execute_quickinfo (toFileLocationRequestArgs filepath position)
         = Ok (ServerResponse.Response (Some body) m) ->
         is_variable_kind (Proto.quickinfo_kind body) = false) ->
      ~ callStarted ->
      isValidFunctionCompletionContext (Some l) filepath position = Ok true).
Proof.
  intros after callStarted. unfold isValidFunctionCompletionContext.
  pose proof (RegexShapes.callStart_shape (Js.slice_from (character position) l))
    as Hshape.
  fold after in Hshape. fold callStarted in Hshape.
  split.
  - intro Hcall. apply Hshape in Hcall. rewrite Hcall.
    match goal with |- (if ?q then _ else _) = _ => destruct q end; reflexivity.
  - intros Hq Hno.
    destruct (Regex.test Patterns.callStart (Js.slice_from (character position) l))
      eqn:Ht; [exfalso; apply Hno, Hshape; reflexivity|].
    destruct (execute_quickinfo (toFileLocationRequestArgs filepath position))
      as [[[body|] m| |]|e] eqn:Hx; try reflexivity.
    rewrite (Hq body m eq_refl). reflexivity.
Qed.

End FunctionContext.

(** With a failing quickinfo request: after [fs.] nothing follows the
    cursor and a call may be completed; before [(path)] it may not. *)
Lemma isValidFunctionCompletionContext_by_text_witness :
  let p := {| line := 0; character := 3 |} in
  @isValidFunctionCompletionContext MoreFixtures.quickinfoFails Fixtures.converters
    (Some "fs.(path)") "/a.ts" p = Ok false
  /\ @isValidFunctionCompletionContext MoreFixtures.quickinfoFails Fixtures.converters
       (Some "fs.") "/a.ts" p = Ok true.
Proof.
  intro p. split.
  - apply (@isValidFunctionCompletionContext_by_text MoreFixtures.quickinfoFails
             Fixtures.converters "fs.(path)" "/a.ts" p).
    exists [], [], (list_ascii_of_string "path)"). repeat split.
  - apply (@isValidFunctionCompletionContext_by_text MoreFixtures.quickinfoFails
             Fixtures.converters "fs." "/a.ts" p).
    + intros body m Hx. discriminate Hx.
    + intros (a & b & rest & Heq & _). simpl in Heq.
      destruct a; [destruct b|]; discriminate Heq.
Defined.

(** ** Accessor context and the list request *)

Section ProvideMore.
Context `{ITypeScriptServiceClient} `{Workspace} `{TypingsStatus}
        `{FileConfigurationManager} `{TypeConverters} `{CompletionItemUtils}
        `{Previewer} {S : Type} `{SnippetString S}.
Variable lang : string.

(** X7. An accessor context is built exactly when the text before the
    cursor, cut at the cursor column, ends with a dot followed by nothing
    but white space. *)
Theorem memberDotAccessorContext_attached_iff
    (document : LinesTextDocument) (position : Position) (preText : string) :
  (exists ctx, memberDotAccessorContext document position preText = Some ctx) <->
  exists p ws,
    list_ascii_of_string (Js.slice_to (character position) preText)
    = p ++ "."%char :: ws
    /\ forallb Js.is_space ws = true.
Proof.
  rewrite <- RegexShapes.dotAccessor_shape. unfold memberDotAccessorContext.
  destruct (Regex.match_suffix Patterns.dotAccessor
              (Js.slice_to (character position) preText)) as [m|];
    split; intros [x Hx]; try discriminate; eauto.
Qed.

(** X8. While typings are being acquired the list request answers with
    one placeholder item, marked incomplete, and leaves [currentLine] as
    it is; the placeholder carries no correlation data, so resolving it
    rejects with a TypeError. *)
Theorem acquiring_typings_placeholder
    (currentLine currentLine' : option string) (document : LinesTextDocument)
    (position : Position) (context : CompletionContext) :
  isAcquiringTypings = true ->
  exists l,
    provideCompletionItems lang currentLine document position context
    = (currentLine, Ok (Some l))
    /\ isIncomplete l = true
    /\ List.length (items l) = 1
    /\ forall item, In item (items l) ->
         resolveCompletionItem (S := S) currentLine' (Some item)
         = Rejected TypeError item.
Proof.
  intro Hacq. unfold provideCompletionItems. rewrite Hacq.
  eexists. split; [reflexivity|]. simpl. split; [reflexivity|].
  split; [reflexivity|].
  intros item [<- | []]. reflexivity.
Qed.

End ProvideMore.

(** A list request made while typings are acquired, on a one-line
    document. *)
Lemma acquiring_typings_placeholder_witness :
  let c := Fixtures.client (API.mk 4 5 0) Fixtures.fileScheme
             (Fixtures.infoOf false [Fixtures.entry "bar" "function"])
             (Ok ServerResponse.NoContent) (Ok ServerResponse.NoContent) in
  let context := {| triggerCharacter := None; option_ := {| synname := None |} |} in
  exists l,
    @provideCompletionItems c Fixtures.workspace MoreFixtures.typingsBusy
      Fixtures.fileConfigurationManager Fixtures.converters Fixtures.utils
      "typescript" (Some "") (Fixtures.document ["ba"])
      {| line := 0; character := 2 |} context
    = (Some "", Ok (Some l))
    /\ isIncomplete l = true
    /\ List.length (items l) = 1
    /\ forall item, In item (items l) ->
         @resolveCompletionItem c Fixtures.previewer Fixtures.converters
           Fixtures.utils _ Fixtures.snippets (Some "") (Some item)
         = Rejected TypeError item.
Proof.
  intros c context.
  apply (@acquiring_typings_placeholder c Fixtures.workspace MoreFixtures.typingsBusy
           Fixtures.fileConfigurationManager Fixtures.converters Fixtures.utils
           Fixtures.previewer _ Fixtures.snippets).
  reflexivity.
Defined.

Section ProvideFailures.
Context `{ITypeScriptServiceClient} `{Workspace} `{TypingsStatus}
        `{FileConfigurationManager} `{TypeConverters} `{CompletionItemUtils}.
Variable lang : string.

(** X10. When the server fails the list request with the message
    [No content available.], the provider answers [null] from version
    3.0.0 on, where the request sits in a try block; below 3.0.0 the
    request is not guarded and the same failure reaches the caller. *)
Theorem noContent_failure_by_version
    (currentLine : option string) (document : LinesTextDocument)
    (position : Position) (context : CompletionContext) (file : string) :
  isAcquiringTypings = false ->
  toPath (doc_uri document) = Some file ->
  file <> "" ->
  shouldTrigger (triggerCharacter context)
    (getText document
       {| start := {| line := line position; character := 0 |}; end_ := position |})
    (option_ context)
    (CompletionConfiguration.getConfigurationForResource lang (doc_uri document))
  = true ->
  ensureConfigurationForDocument document = Ok tt ->
  (forall args, execute_completionInfo args = Throw (Error "No content available.")) ->
  (forall args, execute_completions args = Throw (Error "No content available.")) ->
  snd (provideCompletionItems lang currentLine document position context)
  = if API.gte apiVersion API.v300 then Ok None
    else Throw (Error "No content available.").
Proof.
  intros Hacq Hpath Hfile Htrig Hcfg Hinfo Hlist.
  apply String.eqb_neq in Hfile.
  unfold provideCompletionItems.
  rewrite Hacq, Hpath, Hfile, Htrig. simpl. rewrite Hcfg. simpl.
  unfold roundTrip.
  destruct (API.gte apiVersion API.v300).
  - rewrite Hinfo. reflexivity.
  - rewrite Hlist. reflexivity.
Qed.

(** X11. With a configuration in which none of the suggestion keys is set,
    every entry of the response becomes an item: the defaults exclude
    nothing. *)
Theorem unset_configuration_keeps_every_entry
    (uri : string) (convert : Proto.CompletionEntry -> CompletionItem.t)
    (entries : list Proto.CompletionEntry) :
  (forall key, getConfiguration lang uri key = None) ->
  collectItems convert
    (CompletionConfiguration.getConfigurationForResource lang uri) entries []
  = map convert entries.
Proof.
  intro Hunset. rewrite collectItems_push. simpl. f_equal.
  induction entries as [|e rest IH]; simpl; [reflexivity|].
  unfold shouldExcludeCompletionEntry at 1,
    CompletionConfiguration.getConfigurationForResource at 1.
  simpl. rewrite !Hunset. simpl. rewrite IH. reflexivity.
Qed.

End ProvideFailures.

(** The same failure, on a 4.5.0 and on a 2.8.0 server. *)
Lemma noContent_failure_by_version_witness :
  let e := Error "No content available." in
  let provide v :=
    @provideCompletionItems (MoreFixtures.failingClient v e) Fixtures.workspace
      Fixtures.typingsReady Fixtures.fileConfigurationManager Fixtures.converters
      Fixtures.utils "typescript" (Some "") (Fixtures.document ["ba"])
      {| line := 0; character := 2 |}
      {| triggerCharacter := None; option_ := {| synname := None |} |} in
  snd (provide (API.mk 4 5 0)) = Ok None
  /\ snd (provide (API.mk 2 8 0)) = Throw e.
Proof.
  intros e provide. split.
  - apply (@noContent_failure_by_version (MoreFixtures.failingClient (API.mk 4 5 0) e)
             Fixtures.workspace Fixtures.typingsReady Fixtures.fileConfigurationManager
             Fixtures.converters Fixtures.utils "typescript" (Some "")
             (Fixtures.document ["ba"]) {| line := 0; character := 2 |}
             {| triggerCharacter := None; option_ := {| synname := None |} |} "/a.ts");
      try reflexivity. discriminate.
  - apply (@noContent_failure_by_version (MoreFixtures.failingClient (API.mk 2 8 0) e)
             Fixtures.workspace Fixtures.typingsReady Fixtures.fileConfigurationManager
             Fixtures.converters Fixtures.utils "typescript" (Some "")
             (Fixtures.document ["ba"]) {| line := 0; character := 2 |}
             {| triggerCharacter := None; option_ := {| synname := None |} |} "/a.ts");
      try reflexivity. discriminate.
Defined.

(** With nothing configured a warning entry and an auto-import entry both
    stay. *)
Lemma unset_configuration_keeps_every_entry_witness :
  let convert e :=
    @convertCompletionEntry Fixtures.utils e "file:///a.ts"
      {| line := 0; character := 0 |}
      {| ctx_line := None; ctx_triggerCharacter := None;
         ctx_isNewIdentifierLocation := false; ctx_isMemberCompletion := false;
         enableCallCompletions := false; isInValidCommitCharacterContext_ := true;
         dotAccessorContext := None |} in
  let entries :=
    [ Fixtures.entry "foo" "warning";
      {| Proto.name := "join"; Proto.kind := "function"; Proto.source := Some "path";
         Proto.hasAction := Some true; Proto.insertText := None;
         Proto.data := None |} ] in
  map CompletionItem.label
    (collectItems convert
       (@CompletionConfiguration.getConfigurationForResource Fixtures.workspace
          "typescript" "file:///a.ts") entries [])
  = ["foo"; "join"].
Proof.
  intros convert entries.
  rewrite (@unset_configuration_keeps_every_entry Fixtures.workspace "typescript"
             "file:///a.ts" convert entries); reflexivity.
Defined.

(** ** Code action splitter, in general *)

Section SplitterFacts.
Context `{TypeConverters}.

Lemma scan_changes_fold (filepath : string) (changes : list Proto.FileCodeEdits) :
  forall edits flag,
    fold_left (scan_change filepath) changes (edits, flag) =
    (edits ++ flat_map (fun c => map fromCodeEdit (Proto.textChanges c))
                (filter (Splitter.isCurrent filepath) changes),
     flag || existsb (fun c => negb (Splitter.isCurrent filepath c)) changes).
Proof.
  induction changes as [|c cs IH]; intros edits flag; simpl.
  - rewrite app_nil_r, orb_false_r. reflexivity.
  - change (String.eqb (Proto.fileName c) filepath)
      with (Splitter.isCurrent filepath c).
    destruct (Splitter.isCurrent filepath c); simpl; rewrite IH.
    + rewrite <- app_assoc. reflexivity.
    + rewrite orb_true_r. reflexivity.
Qed.

Lemma scan_actions_fold (filepath : string) (actions : list Proto.CodeAction) :
  forall edits flag,
    fold_left (scan_action filepath) actions (edits, flag) =
    (edits ++ Splitter.inlineEdits filepath actions,
     flag || Splitter.remainingWork filepath actions).
Proof.
  induction actions as [|a rest IH]; intros edits flag.
  - simpl. rewrite app_nil_r, orb_false_r. reflexivity.
  - assert (Hstep : scan_action filepath (edits, flag) a =
                    (edits ++ flat_map (fun c => map fromCodeEdit (Proto.textChanges c))
                                (filter (Splitter.isCurrent filepath) (Splitter.changesOf a)),
                     flag || (match Proto.commands a with Some _ => true | None => false end
                              || existsb (fun c => negb (Splitter.isCurrent filepath c))
                                   (Splitter.changesOf a)))).
    { unfold scan_action, Splitter.changesOf.
      destruct (Proto.commands a), (Proto.changes a) as [cs|]; simpl;
        rewrite ?scan_changes_fold, ?app_nil_r, ?orb_true_r, ?orb_false_r;
        reflexivity. }
    cbn [fold_left]. rewrite Hstep, IH.
    unfold Splitter.inlineEdits, Splitter.remainingWork. cbn [flat_map existsb].
    f_equal; [rewrite <- app_assoc; reflexivity | symmetry; apply orb_assoc].
Qed.

Lemma mapM_strip_ok (filepath : string) (actions : list Proto.CodeAction) :
  Forall (fun a => Proto.changes a <> None) actions ->
  mapM (strip_action filepath) actions =
  Ok (map (Splitter.withoutCurrentFile filepath) actions).
Proof.
  induction 1 as [|a rest Ha Hrest IH]; simpl; [reflexivity|].
  unfold strip_action at 1, Splitter.withoutCurrentFile at 1, Splitter.changesOf at 1.
  destruct (Proto.changes a) as [cs|]; [|congruence].
  simpl. rewrite IH. reflexivity.
Qed.

Lemma changes_present_dec (actions : list Proto.CodeAction) :
  Forall (fun a => Proto.changes a <> None) actions
  \/ exists a, In a actions /\ Proto.changes a = None.
Proof.
  induction actions as [|a rest [IH|(x & Hin & Hx)]].
  - left. constructor.
  - destruct (Proto.changes a) eqn:E.
    + left. constructor; [congruence | exact IH].
    + right. exists a. split; [left; reflexivity | exact E].
  - right. exists x. split; [right; exact Hin | exact Hx].
Qed.

(** The result of the splitter on a non-empty list, in one of three
    cases. *)
Lemma getCodeActions_cases
    (detail : Proto.CompletionEntryDetails) (filepath : string)
    (actions : list Proto.CodeAction) :
  Proto.codeActions detail = Some actions ->
  let edits :=
    match Splitter.inlineEdits filepath actions with
    | [] => None
    | _ :: _ => Some (Splitter.inlineEdits filepath actions)
    end in
  (Splitter.remainingWork filepath actions = false
   /\ getCodeActions detail filepath =
      Ok {| result_command := None; result_additionalTextEdits := edits |})
  \/ (Splitter.remainingWork filepath actions = true
      /\ (exists a, In a actions /\ Proto.changes a = None)
      /\ getCodeActions detail filepath = Throw TypeError)
  \/ (Splitter.remainingWork filepath actions = true
      /\ Forall (fun a => Proto.changes a <> None) actions
      /\ exists payload,
           mapM (strip_action filepath) actions = Ok payload
           /\ getCodeActions detail filepath =
              Ok {| result_command :=
                      Some {| title := "";
                              command := ApplyCompletionCodeActionCommand.ID;
                              arguments := [payload] |};
                    result_additionalTextEdits := edits |}).
Proof.
  intros Hd edits. unfold getCodeActions. rewrite Hd.
  destruct actions as [|a0 rest].
  { left. split; reflexivity. }
  rewrite scan_actions_fold. cbn [app orb].
  destruct (Splitter.remainingWork filepath (a0 :: rest)) eqn:Hrem.
  - right. destruct (changes_present_dec (a0 :: rest)) as [Hall | (a & Hin & Ha)].
    + right. split; [reflexivity|]. split; [exact Hall|].
      rewrite (mapM_strip_ok filepath Hall). eexists. split; reflexivity.
    + left. split; [reflexivity|]. split; [eauto|].
      rewrite (mapM_strip_throws filepath (a0 :: rest) a Hin Ha). reflexivity.
  - left. split; reflexivity.
Qed.

End SplitterFacts.

Section SplitterTheorems.
Context `{TypeConverters}.

Lemma filter_other_idempotent (filepath : string) (cs : list Proto.FileCodeEdits) :
  filter (fun c => negb (Splitter.isCurrent filepath c))
    (filter (fun c => negb (Splitter.isCurrent filepath c)) cs)
  = filter (fun c => negb (Splitter.isCurrent filepath c)) cs.
Proof.
  induction cs as [|c cs IH]; simpl; [reflexivity|].
  destruct (Splitter.isCurrent filepath c) eqn:E; simpl; [exact IH|].
  rewrite E. simpl. rewrite IH. reflexivity.
Qed.

Lemma filter_current_of_other (filepath : string) (cs : list Proto.FileCodeEdits) :
  filter (Splitter.isCurrent filepath)
    (filter (fun c => negb (Splitter.isCurrent filepath c)) cs) = [].
Proof.
  induction cs as [|c cs IH]; simpl; [reflexivity|].
  destruct (Splitter.isCurrent filepath c) eqn:E; simpl; [exact IH|].
  rewrite E. exact IH.
Qed.

Lemma existsb_other_of_other (filepath : string) (cs : list Proto.FileCodeEdits) :
  existsb (fun c => negb (Splitter.isCurrent filepath c))
    (filter (fun c => negb (Splitter.isCurrent filepath c)) cs)
  = existsb (fun c => negb (Splitter.isCurrent filepath c)) cs.
Proof.
  induction cs as [|c cs IH]; simpl; [reflexivity|].
  destruct (Splitter.isCurrent filepath c) eqn:E; simpl; [exact IH|].
  rewrite E. reflexivity.
Qed.

Lemma stripped_twice (filepath : string) (actions : list Proto.CodeAction) :
  map (Splitter.withoutCurrentFile filepath)
    (map (Splitter.withoutCurrentFile filepath) actions)
  = map (Splitter.withoutCurrentFile filepath) actions.
Proof.
  rewrite map_map. apply map_ext. intro a.
  unfold Splitter.withoutCurrentFile, Splitter.changesOf. simpl.
  rewrite filter_other_idempotent. reflexivity.
Qed.

Lemma stripped_inlineEdits (filepath : string) (actions : list Proto.CodeAction) :
  Splitter.inlineEdits filepath (map (Splitter.withoutCurrentFile filepath) actions)
  = [].
Proof.
  unfold Splitter.inlineEdits.
  induction actions as [|a rest IH]; simpl; [reflexivity|].
  rewrite IH. unfold Splitter.changesOf at 1. simpl.
  rewrite filter_current_of_other. reflexivity.
Qed.

Lemma stripped_remainingWork (filepath : string) (actions : list Proto.CodeAction) :
  Splitter.remainingWork filepath (map (Splitter.withoutCurrentFile filepath) actions)
  = Splitter.remainingWork filepath actions.
Proof.
  unfold Splitter.remainingWork.
  induction actions as [|a rest IH]; simpl; [reflexivity|].
  rewrite IH. unfold Splitter.changesOf at 1. simpl.
  rewrite existsb_other_of_other. reflexivity.
Qed.

Lemma stripped_changes_present (filepath : string) (actions : list Proto.CodeAction) :
  Forall (fun a => Proto.changes a <> None)
    (map (Splitter.withoutCurrentFile filepath) actions).
Proof.
  apply Forall_forall. intros a Hin. apply in_map_iff in Hin as (x & <- & _).
  simpl. discriminate.
Qed.

(** X12. When the splitter returns, the inline edits are the edits of all
    the changes that name the current file, taken action by action and
    change by change in their order; they are unset when there is none. *)
Theorem getCodeActions_inline_edits
    (detail : Proto.CompletionEntryDetails) (filepath : string)
    (actions : list Proto.CodeAction) (r : CodeActionsResult) :
  Proto.codeActions detail = Some actions ->
  getCodeActions detail filepath = Ok r ->
  result_additionalTextEdits r =
  match Splitter.inlineEdits filepath actions with
  | [] => None
  | _ :: _ => Some (Splitter.inlineEdits filepath actions)
  end.
Proof.
  intros Hd Hr.
  destruct (getCodeActions_cases detail filepath Hd)
    as [(_ & Hg) | [(_ & _ & Hg) | (_ & _ & payload & _ & Hg)]];
    rewrite Hg in Hr; try discriminate; injection Hr as <-; reflexivity.
Qed.

(** X13. When the splitter returns, it returns a deferred command exactly
    when some action carries commands or a change for another file. *)
Theorem getCodeActions_command_iff
    (detail : Proto.CompletionEntryDetails) (filepath : string)
    (actions : list Proto.CodeAction) (r : CodeActionsResult) :
  Proto.codeActions detail = Some actions ->
  getCodeActions detail filepath = Ok r ->
  (result_command r <> None <-> Splitter.remainingWork filepath actions = true).
Proof.
  intros Hd Hr.
  destruct (getCodeActions_cases detail filepath Hd)
    as [(Hrem & Hg) | [(_ & _ & Hg) | (Hrem & _ & payload & _ & Hg)]];
    rewrite Hg in Hr; try discriminate; injection Hr as <-; simpl; rewrite Hrem.
  - split; [congruence | discriminate].
  - split; [reflexivity | discriminate].
Qed.

(** X14. The splitter throws exactly when there is remaining work and
    some action has no [changes] field; what it throws is a TypeError.
    With [changes] present on every action it always returns. *)
Theorem getCodeActions_throws_iff
    (detail : Proto.CompletionEntryDetails) (filepath : string)
    (actions : list Proto.CodeAction) (e : JsError) :
  Proto.codeActions detail = Some actions ->
  (getCodeActions detail filepath = Throw e <->
   e = TypeError
   /\ Splitter.remainingWork filepath actions = true
   /\ exists a, In a actions /\ Proto.changes a = None).
Proof.
  intros Hd.
  destruct (getCodeActions_cases detail filepath Hd)
    as [(Hrem & Hg) | [(Hrem & Hex & Hg) | (Hrem & Hall & payload & _ & Hg)]];
    rewrite Hg.
  - split; [discriminate|]. intros (_ & Hrem' & _). congruence.
  - split; [intros [= <-]; auto | intros (-> & _); reflexivity].
  - split; [discriminate|]. intros (_ & _ & a & Hin & Ha).
    rewrite Forall_forall in Hall. exfalso. exact (Hall a Hin Ha).
Qed.

(** X15. The payload of the deferred command has one action per action
    of the detail, with the same description and the same commands, in the
    same order, and none of its changes names the current file. *)
Theorem getCodeActions_payload
    (detail : Proto.CompletionEntryDetails) (filepath : string)
    (actions : list Proto.CodeAction) (r : CodeActionsResult) (cmd : Command) :
  Proto.codeActions detail = Some actions ->
  getCodeActions detail filepath = Ok r ->
  result_command r = Some cmd ->
  command cmd = ApplyCompletionCodeActionCommand.ID
  /\ exists payload,
       arguments cmd = [payload]
       /\ map Proto.description payload = map Proto.description actions
       /\ map Proto.commands payload = map Proto.commands actions
       /\ forall a cs c,
            In a payload -> Proto.changes a = Some cs -> In c cs ->
            Proto.fileName c <> filepath.
Proof.
  intros Hd Hr Hcmd.
  destruct (getCodeActions_cases detail filepath Hd)
    as [(_ & Hg) | [(_ & _ & Hg) | (_ & Hall & payload & Hp & Hg)]];
    rewrite Hg in Hr; try discriminate; injection Hr as <-; simpl in Hcmd;
    try discriminate.
  injection Hcmd as <-. simpl. split; [reflexivity|].
  rewrite (mapM_strip_ok filepath Hall) in Hp. injection Hp as <-.
  eexists. split; [reflexivity|]. rewrite !map_map. simpl.
  split; [reflexivity|]. split; [reflexivity|].
  intros a cs c Hin Hcs Hc.
  apply in_map_iff in Hin as (x & <- & _). simpl in Hcs. injection Hcs as <-.
  apply filter_In in Hc as [_ Hc]. apply negb_true_iff in Hc.
  apply String.eqb_neq. exact Hc.
Qed.

(** X16. Replaying is stable: run on the payload of a deferred command it
    returned, the splitter returns no inline edits and a deferred command
    with that same payload. *)
Theorem getCodeActions_rerun_on_payload
    (detail detail' : Proto.CompletionEntryDetails) (filepath : string)
    (actions payload : list Proto.CodeAction) (r : CodeActionsResult) (cmd : Command) :
  Proto.codeActions detail = Some actions ->
  getCodeActions detail filepath = Ok r ->
  result_command r = Some cmd ->
  arguments cmd = [payload] ->
  Proto.codeActions detail' = Some payload ->
  getCodeActions detail' filepath =
  Ok {| result_command := Some cmd; result_additionalTextEdits := None |}.
Proof.
  intros Hd Hr Hcmd Hargs Hd'.
  destruct (getCodeActions_cases detail filepath Hd)
    as [(_ & Hg) | [(_ & _ & Hg) | (Hrem & Hall & p & Hp & Hg)]];
    rewrite Hg in Hr; try discriminate; injection Hr as <-; simpl in Hcmd;
    try discriminate.
  injection Hcmd as <-. simpl in Hargs. injection Hargs as <-.
  rewrite (mapM_strip_ok filepath Hall) in Hp. injection Hp as <-.
  destruct (getCodeActions_cases detail' filepath Hd')
    as [(Hrem' & _) | [(_ & (a & Hin & Ha) & _) | (_ & _ & p' & Hp' & Hg')]].
  - rewrite stripped_remainingWork in Hrem'. congruence.
  - pose proof (stripped_changes_present filepath actions) as Hpresent.
    rewrite Forall_forall in Hpresent. exfalso. exact (Hpresent a Hin Ha).
  - rewrite (mapM_strip_ok filepath (stripped_changes_present filepath actions)),
      stripped_twice in Hp'.
    injection Hp' as <-. rewrite Hg', stripped_inlineEdits. reflexivity.
Qed.

End SplitterTheorems.

(** The two sample actions, split for the current file [/a.ts]. *)
Lemma getCodeActions_inline_edits_witness :
  @getCodeActions Fixtures.converters
    (Fixtures.detailWith MoreFixtures.sampleActions) "/a.ts" = Ok MoreFixtures.sampleResult
  /\ result_additionalTextEdits MoreFixtures.sampleResult
     = Some [MoreFixtures.textEdit 0 "import b"; MoreFixtures.textEdit 1 "sorted"].
Proof.
  split; [reflexivity|].
  apply (@getCodeActions_inline_edits Fixtures.converters
           (Fixtures.detailWith MoreFixtures.sampleActions) "/a.ts"
           MoreFixtures.sampleActions MoreFixtures.sampleResult);
    reflexivity.
Defined.

Lemma getCodeActions_command_iff_witness :
  result_command MoreFixtures.sampleResult <> None
  <-> Splitter.remainingWork "/a.ts" MoreFixtures.sampleActions = true.
Proof.
  apply (@getCodeActions_command_iff Fixtures.converters
           (Fixtures.detailWith MoreFixtures.sampleActions) "/a.ts"
           MoreFixtures.sampleActions MoreFixtures.sampleResult);
    reflexivity.
Defined.

(** With a third action that has commands and no [changes] the splitter
    throws. *)
Lemma getCodeActions_throws_iff_witness :
  let broken := {| Proto.description := "Fix"; Proto.changes := None;
                   Proto.commands := Some [] |} in
  let actions := MoreFixtures.sampleActions ++ [broken] in
  @getCodeActions Fixtures.converters (Fixtures.detailWith actions) "/a.ts"
  = Throw TypeError.
Proof.
  intros broken actions.
  apply (@getCodeActions_throws_iff Fixtures.converters
           (Fixtures.detailWith actions) "/a.ts" actions TypeError);
    [reflexivity|].
  split; [reflexivity|]. split; [reflexivity|].
  exists broken. split; [|reflexivity]. simpl. auto.
Defined.

Lemma getCodeActions_payload_witness :
  command MoreFixtures.sampleCommand = ApplyCompletionCodeActionCommand.ID
  /\ exists payload,
       arguments MoreFixtures.sampleCommand = [payload]
       /\ map Proto.description payload
          = map Proto.description MoreFixtures.sampleActions
       /\ map Proto.commands payload = map Proto.commands MoreFixtures.sampleActions
       /\ forall a cs c,
            In a payload -> Proto.changes a = Some cs -> In c cs ->
            Proto.fileName c <> "/a.ts".
Proof.
  apply (@getCodeActions_payload Fixtures.converters
           (Fixtures.detailWith MoreFixtures.sampleActions) "/a.ts"
           MoreFixtures.sampleActions MoreFixtures.sampleResult
           MoreFixtures.sampleCommand);
    reflexivity.
Defined.

Lemma getCodeActions_rerun_on_payload_witness :
  @getCodeActions Fixtures.converters
    (Fixtures.detailWith MoreFixtures.samplePayload) "/a.ts"
  = Ok {| result_command := Some MoreFixtures.sampleCommand;
          result_additionalTextEdits := None |}.
Proof.
  apply (@getCodeActions_rerun_on_payload Fixtures.converters
           (Fixtures.detailWith MoreFixtures.sampleActions)
           (Fixtures.detailWith MoreFixtures.samplePayload) "/a.ts"
           MoreFixtures.sampleActions MoreFixtures.samplePayload
           MoreFixtures.sampleResult MoreFixtures.sampleCommand);
    reflexivity.
Defined.

(** ** What a resolution keeps and what it replaces *)

Section ResolveMore.
Context `{ITypeScriptServiceClient} `{Previewer} `{TypeConverters}
        `{CompletionItemUtils} {S : Type} `{SnippetString S}.
Variable currentLine : option string.

Lemma getCodeActions_command_id
    (detail : Proto.CompletionEntryDetails) (filepath : string)
    (r : CodeActionsResult) (cmd : Command) :
  getCodeActions detail filepath = Ok r ->
  result_command r = Some cmd ->
  command cmd = ApplyCompletionCodeActionCommand.ID.
Proof.
  unfold getCodeActions.
  destruct (Proto.codeActions detail) as [[|a rest]|];
    try (intros [= <-]; discriminate).
  destruct (fold_left (scan_action filepath) (a :: rest) ([], false)) as [edits flag].
  destruct flag.
  - destruct (mapM (strip_action filepath) (a :: rest)) as [p|e]; simpl;
      [|discriminate].
    intros [= <-]. simpl. intros [= <-]. reflexivity.
  - simpl. intros [= <-]. discriminate.
Qed.

(** The fields of the item that [enrich] leaves alone. *)
Lemma enrich_keeps_identity
    (item : CompletionItem.t) (d : ItemData) (filepath : string)
    (previousInsert : option string) (detail : Proto.CompletionEntryDetails) :
  CompletionItem.data item = Some d ->
  let after :=
    item_after item (enrich (S := S) currentLine item d filepath previousInsert detail) in
  CompletionItem.label after = CompletionItem.label item
  /\ CompletionItem.insertTextFormat after = CompletionItem.insertTextFormat item
  /\ (CompletionItem.data after = Some d
      \/ CompletionItem.data after = Some (mark_isSnippet d)).
Proof.
  intros Hd after. subst after. unfold enrich.
  destruct (negb (Js.truthy (CompletionItem.detail item))
            && negb (List.length (Proto.displayParts detail) =? 0));
    (destruct (getCodeActions detail filepath) as [actions|e]; simpl; [|auto]);
    destruct (result_command actions); simpl;
    destruct (isSnippet d); simpl; auto;
    destruct (CompletionItem.insertTextFormat item) as [[|]|] eqn:Hfmt; simpl; auto;
    destruct (isValidFunctionCompletionContext currentLine filepath (position d))
      as [[|]|e]; simpl; auto;
    try match goal with |- context [loose_eq ?a ?b] => destruct (loose_eq a b) end;
    simpl; auto.
Qed.

(** X17. A resolution never touches the label, the insertion-text format
    or the correlation key of the item (uri, position, source, name and
    the opaque entry data), and never clears [isSnippet]: the item can be
    resolved again against the same entry. *)
Theorem resolve_keeps_identity (item : CompletionItem.t) :
  let key (d : ItemData) := (uri d, position d, source d, name d, data d) in
  let after :=
    item_after item (resolveCompletionItem (S := S) currentLine (Some item)) in
  CompletionItem.label after = CompletionItem.label item
  /\ CompletionItem.insertTextFormat after = CompletionItem.insertTextFormat item
  /\ option_map key (CompletionItem.data after)
     = option_map key (CompletionItem.data item)
  /\ (option_map isSnippet (CompletionItem.data item) = Some true ->
      option_map isSnippet (CompletionItem.data after) = Some true).
Proof.
  intros key after. subst after. unfold resolveCompletionItem.
  destruct (CompletionItem.data item) as [d|] eqn:Hd; simpl; [|rewrite Hd; auto].
  destruct (toPath (uri d)) as [filepath|]; simpl; [|rewrite Hd; auto].
  destruct (String.eqb filepath ""); simpl; [rewrite Hd; auto|].
  destruct (execute_completionEntryDetails (detailsArgs filepath d))
    as [[[[|[detail|] rest]|] m| |]|e]; simpl; try (rewrite Hd; auto; fail).
  destruct (@enrich_keeps_identity item d filepath
              (CompletionItem.insertText item) detail Hd) as (Hl & Hf & Hdata).
  split; [exact Hl|]. split; [exact Hf|].
  destruct Hdata as [-> | ->]; simpl; auto.
Qed.

(** X18. After a resolution the command of the item is the one it had, or
    the deferred command of the splitter: a command already on the item is
    never removed, even when the detail has no remaining work. *)
Theorem resolve_keeps_or_defers_command (item : CompletionItem.t) :
  let after :=
    item_after item (resolveCompletionItem (S := S) currentLine (Some item)) in
  CompletionItem.command after = CompletionItem.command item
  \/ exists cmd, CompletionItem.command after = Some cmd
                 /\ command cmd = ApplyCompletionCodeActionCommand.ID.
Proof.
  intro item1. subst item1. unfold resolveCompletionItem.
  destruct (CompletionItem.data item) as [d|]; simpl; [|auto].
  destruct (toPath (uri d)) as [filepath|]; simpl; [|auto].
  destruct (String.eqb filepath ""); simpl; [auto|].
  destruct (execute_completionEntryDetails (detailsArgs filepath d))
    as [[[[|[detail|] rest]|] m| |]|e]; simpl; auto.
  unfold enrich.
  destruct (getCodeActions detail filepath) as [actions|e] eqn:Ha.
  2:{ destruct (negb (Js.truthy (CompletionItem.detail item))
                && negb (List.length (Proto.displayParts detail) =? 0));
        simpl; auto. }
  assert (Hcmd : forall cmd, result_command actions = Some cmd ->
                 command cmd = ApplyCompletionCodeActionCommand.ID)
    by (intros cmd; apply (@getCodeActions_command_id detail filepath actions cmd Ha)).
  destruct (negb (Js.truthy (CompletionItem.detail item))
            && negb (List.length (Proto.displayParts detail) =? 0));
    destruct (result_command actions) as [cmd|]; simpl;
    destruct (isSnippet d); simpl; eauto;
    destruct (CompletionItem.insertTextFormat item) as [[|]|]; simpl; eauto;
    destruct (isValidFunctionCompletionContext currentLine filepath (position d))
      as [[|]|e]; simpl; eauto;
    try match goal with |- context [loose_eq ?a ?b] => destruct (loose_eq a b) end;
    simpl; eauto.
Qed.

End ResolveMore.

Section ResolveOverwrites.
Context `{ITypeScriptServiceClient} `{Previewer} `{TypeConverters}
        `{CompletionItemUtils} {S : Type} `{SnippetString S}.
Variable currentLine : option string.

(** X19. A detail text already on the item is never replaced. *)
Theorem resolve_keeps_detail (item : CompletionItem.t) :
  Js.truthy (CompletionItem.detail item) = true ->
  CompletionItem.detail
    (item_after item (resolveCompletionItem (S := S) currentLine (Some item)))
  = CompletionItem.detail item.
Proof.
  intro Hdetail. unfold resolveCompletionItem.
  destruct (CompletionItem.data item) as [d|]; simpl; [|reflexivity].
  destruct (toPath (uri d)) as [filepath|]; simpl; [|reflexivity].
  destruct (String.eqb filepath ""); simpl; [reflexivity|].
  destruct (execute_completionEntryDetails (detailsArgs filepath d))
    as [[[[|[detail|] rest]|] m| |]|e]; simpl; try reflexivity.
  unfold enrich. rewrite Hdetail. simpl.
  destruct (getCodeActions detail filepath) as [actions|e]; simpl; [|reflexivity].
  destruct (result_command actions); simpl;
    destruct (isSnippet d); simpl; auto;
    destruct (CompletionItem.insertTextFormat item) as [[|]|]; simpl; auto;
    destruct (isValidFunctionCompletionContext currentLine filepath (position d))
      as [[|]|e]; simpl; auto;
    try match goal with |- context [loose_eq ?a ?b] => destruct (loose_eq a b) end;
    simpl; auto.
Qed.

(** X20. An item whose insertion-text format is not "snippet" keeps its
    insertion text through a resolution. *)
Theorem resolve_plain_text_untouched (item : CompletionItem.t) :
  CompletionItem.insertTextFormat item <> Some InsertTextFormat.Snippet ->
  CompletionItem.insertText
    (item_after item (resolveCompletionItem (S := S) currentLine (Some item)))
  = CompletionItem.insertText item.
Proof.
  intro Hfmt. unfold resolveCompletionItem.
  destruct (CompletionItem.data item) as [d|]; simpl; [|reflexivity].
  destruct (toPath (uri d)) as [filepath|]; simpl; [|reflexivity].
  destruct (String.eqb filepath ""); simpl; [reflexivity|].
  destruct (execute_completionEntryDetails (detailsArgs filepath d))
    as [[[[|[detail|] rest]|] m| |]|e]; simpl; try reflexivity.
  apply enrich_skips. right. left. exact Hfmt.
Qed.

(** X21. A resolution that changes the insertion text leaves [isSnippet]
    set on the item, which is what keeps the next resolution from
    building the snippet again. *)
Theorem resolve_change_marks_isSnippet (item : CompletionItem.t) :
  let item1 :=
    item_after item (resolveCompletionItem (S := S) currentLine (Some item)) in
  CompletionItem.insertText item1 <> CompletionItem.insertText item ->
  option_map isSnippet (CompletionItem.data item1) = Some true.
Proof.
  intro item1. subst item1. unfold resolveCompletionItem.
  destruct (CompletionItem.data item) as [d|] eqn:Hd; simpl; [|congruence].
  destruct (toPath (uri d)) as [filepath|]; simpl; [|congruence].
  destruct (String.eqb filepath ""); simpl; [congruence|].
  destruct (execute_completionEntryDetails (detailsArgs filepath d))
    as [[[[|[detail|] rest]|] m| |]|e]; simpl; try congruence.
  intro Hchanged.
  destruct (@enrich_marks_or_skips _ _ _ _ _ _ currentLine item d filepath
              (CompletionItem.insertText item) detail Hd)
    as [_ [Hmark | [_ Hskip]]].
  - rewrite Hmark. reflexivity.
  - exfalso. apply Hchanged.
    apply (@enrich_skips _ _ _ _ _ _ currentLine item d filepath
             (CompletionItem.insertText item) detail Hskip).
Qed.


End ResolveOverwrites.

(** An item already marked [isSnippet], resolved against the detail of
    [readFile], is still marked. *)
Lemma resolve_keeps_identity_witness :
  let item := ResolveExamples.itemFor "file:///a.ts" true in
  let answer :=
    Ok (ServerResponse.Response (Some [Some ResolveExamples.readFileDetail]) None) in
  option_map isSnippet
    (CompletionItem.data
       (item_after item (ResolveExamples.resolveWith answer (Some item))))
  = Some true.
Proof.
  intros item answer. unfold ResolveExamples.resolveWith.
  destruct (@resolve_keeps_identity (ResolveExamples.clientAnswering answer)
              Fixtures.previewer Fixtures.converters Fixtures.utils _
              Fixtures.snippets (Some "fs.") item) as (_ & _ & _ & Hs).
  apply Hs. reflexivity.
Defined.

(** An item that shows [fs module] as its detail keeps it. *)
Lemma resolve_keeps_detail_witness :
  let item :=
    CompletionItem.set_detail (Some "fs module")
      (ResolveExamples.itemFor "file:///a.ts" false) in
  let answer :=
    Ok (ServerResponse.Response (Some [Some ResolveExamples.readFileDetail]) None) in
  CompletionItem.detail
    (item_after item (ResolveExamples.resolveWith answer (Some item)))
  = Some "fs module".
Proof.
  intros item answer. unfold ResolveExamples.resolveWith.
  rewrite (@resolve_keeps_detail (ResolveExamples.clientAnswering answer)
             Fixtures.previewer Fixtures.converters Fixtures.utils _
             Fixtures.snippets (Some "fs.") item); reflexivity.
Defined.

(** A plain-text item is not turned into a call snippet. *)
Lemma resolve_plain_text_untouched_witness :
  let item :=
    {| CompletionItem.label := "readFile"; CompletionItem.detail := None;
       CompletionItem.documentation := None;
       CompletionItem.insertText := Some "readFile";
       CompletionItem.insertTextFormat := Some InsertTextFormat.PlainText;
       CompletionItem.command := None; CompletionItem.additionalTextEdits := None;
       CompletionItem.data :=
         CompletionItem.data (ResolveExamples.itemFor "file:///a.ts" false) |} in
  let answer :=
    Ok (ServerResponse.Response (Some [Some ResolveExamples.readFileDetail]) None) in
  CompletionItem.insertText
    (item_after item (ResolveExamples.resolveWith answer (Some item)))
  = Some "readFile".
Proof.
  intros item answer. unfold ResolveExamples.resolveWith.
  rewrite (@resolve_plain_text_untouched (ResolveExamples.clientAnswering answer)
             Fixtures.previewer Fixtures.converters Fixtures.utils _
             Fixtures.snippets (Some "fs.") item); [reflexivity | discriminate].
Defined.

(** The first resolution of a snippet item builds the call and marks the
    item. *)
Lemma resolve_change_marks_isSnippet_witness :
  let item := ResolveExamples.itemFor "file:///a.ts" false in
  let answer :=
    Ok (ServerResponse.Response (Some [Some ResolveExamples.readFileDetail]) None) in
  let item1 := item_after item (ResolveExamples.resolveWith answer (Some item)) in
  CompletionItem.insertText item1 = Some "readFile(${1:path})$0"
  /\ option_map isSnippet (CompletionItem.data item1) = Some true.
Proof.
  intros item answer item1. split; [reflexivity|].
  unfold item1, ResolveExamples.resolveWith.
  apply (@resolve_change_marks_isSnippet (ResolveExamples.clientAnswering answer)
           Fixtures.previewer Fixtures.converters Fixtures.utils _
           Fixtures.snippets (Some "fs.") item).
  discriminate.
Defined.


(** ** Documentation, correlation key, snippets *)

Section DocumentationMore.
Context `{Previewer}.

(** X23. A detail with a source module always gets a documentation, and it
    starts with the line [Auto import from '<module>']. *)
Theorem getDocumentation_with_source
    (detail : Proto.CompletionEntryDetails) (src : list Proto.SymbolDisplayPart) :
  Proto.detail_source detail = Some src ->
  exists rest,
    getDocumentation detail =
    Some {| kind := Markdown;
            value := ("Auto import from '" ++ plainWithLinks (Some src) ++ "'"
                      ++ Spec.newline ++ rest)%string |}.
Proof.
  intro Hsrc. unfold getDocumentation. rewrite Hsrc.
  exists (Js.join (String "010" (String "010" ""))
            (filter keeps_part
               [plainWithLinks (Proto.documentation detail);
                tagsMarkdownPreview (Proto.tags detail)])).
  simpl. unfold Spec.newline. rewrite !string_append_assoc. reflexivity.
Qed.

End DocumentationMore.

Lemma getDocumentation_with_source_witness :
  let detail :=
    {| Proto.displayParts := []; Proto.documentation := None; Proto.tags := None;
       Proto.codeActions := None;
       Proto.detail_source := Some [ {| Proto.text := "fs"; Proto.part_kind := "text" |} ] |} in
  exists rest,
    @getDocumentation Fixtures.previewer detail =
    Some {| kind := Markdown;
            value := ("Auto import from 'fs'" ++ Spec.newline ++ rest)%string |}.
Proof.
  intro detail.
  apply (@getDocumentation_with_source Fixtures.previewer detail
           [ {| Proto.text := "fs"; Proto.part_kind := "text" |} ]).
  reflexivity.
Defined.

(** X24. Two items send the same entry name to the server exactly when
    they have the same name and either both have no source, or both have
    the same source and the same opaque data: with a source the key is
    name, source and data together; without one it is the name alone,
    whatever the data. *)
Theorem entryNameOf_eq_iff (d1 d2 : ItemData) :
  entryNameOf d1 = entryNameOf d2 <->
  name d1 = name d2
  /\ ((Js.truthy (source d1) = false /\ Js.truthy (source d2) = false)
      \/ (Js.truthy (source d1) = true
          /\ source d1 = source d2 /\ data d1 = data d2)).
Proof.
  unfold entryNameOf, Js.truthy.
  destruct (source d1) as [s1|], (source d2) as [s2|];
    try destruct (String.eqb s1 "") eqn:E1;
    try destruct (String.eqb s2 "") eqn:E2; simpl;
    (split;
     [ intros [= ? ? ?] || intros [= ?]; subst;
       rewrite ?E1 in *; try discriminate; intuition congruence
     | intros (Hn & [(Ha & Hb) | (Ha & Hb & Hc)]); try discriminate;
       try (injection Hb as <-); rewrite ?E1 in *; try discriminate;
       congruence ]).
Qed.

Section SnippetCallsFacts.
Context {S : Type} `{SnippetString S} `{CompletionItemUtils}.

Lemma run_app (calls1 calls2 : list SnippetCalls.Call) (s : S) :
  SnippetCalls.run (calls1 ++ calls2) s
  = SnippetCalls.run calls2 (SnippetCalls.run calls1 s).
Proof. unfold SnippetCalls.run. apply fold_left_app. Qed.

Lemma appendJoinedPlaceholders_run
    (parts : list Proto.SymbolDisplayPart) (joiner : string) :
  forall snippet : S,
    appendJoinedPlaceholders snippet parts joiner
    = SnippetCalls.run (SnippetCalls.joined (map Proto.text parts) joiner) snippet.
Proof.
  induction parts as [|p rest IH]; intro snippet; [reflexivity|].
  cbn [appendJoinedPlaceholders]. rewrite IH.
  destruct rest as [|q rest']; reflexivity.
Qed.

(** X25. For any parameter list, the snippet is built by these calls, in
    this order: the insertion text of the item, or its label when it has
    no insertion text, with ["("]; one placeholder per parameter part with
    [", "] before each but the first; a tab stop when some parameter is
    optional; [")"]; and the tab stop 0. *)
Theorem functionCallSnippet_calls
    (item : CompletionItem.t) (detail : Proto.CompletionEntryDetails) :
  let parameterListParts := getParameterListParts (Proto.displayParts detail) in
  CompletionItem.insertText (createSnippetOfFunctionCall item detail)
  = Some (snippet_value
      (SnippetCalls.run
         ([SnippetCalls.AppendText
             (match CompletionItem.insertText item with
              | Some insertText => insertText
              | None => CompletionItem.label item
              end ++ "(")%string]
          ++ SnippetCalls.joined (map Proto.text (parts parameterListParts)) ", "
          ++ (if hasOptionalParameters parameterListParts
              then [SnippetCalls.AppendTabstop None] else [])
          ++ [SnippetCalls.AppendText ")"; SnippetCalls.AppendTabstop (Some 0)])
         new_SnippetString)).
Proof.
  intro parameterListParts.
  unfold createSnippetOfFunctionCall, functionCallSnippet, insertTextOrLabel.
  fold parameterListParts. simpl. f_equal. f_equal.
  rewrite appendJoinedPlaceholders_run.
  rewrite !run_app.
  destruct (hasOptionalParameters parameterListParts); reflexivity.
Qed.

End SnippetCallsFacts.

(** ** The deferred command *)

Section ApplyCommandFacts.
Context `{Window} `{CodeActionApplier}.

(** X26. Executing the deferred command applies at most one action, and
    an action it applies is one of the list; it asks for a choice only
    when the list has two actions or more, and then offers the
    descriptions of all of them in order. *)
Theorem execute_applies_at_most_one (codeActions : list Proto.CodeAction) :
  let calls := fst (ApplyCommand.execute codeActions) in
  List.length (ApplyCommand.applied calls) <= 1
  /\ (forall a, In (Some a) (ApplyCommand.applied calls) -> In a codeActions)
  /\ (forall items title,
        In (ApplyCommand.ShowQuickpick items title) calls ->
        2 <= List.length codeActions
        /\ items = map Proto.description codeActions).
Proof.
  unfold ApplyCommand.execute.
  destruct codeActions as [|a [|b rest]]; simpl.
  - split; [lia|]. split; [intros ? []|intros ? ? []].
  - split; [lia|]. split.
    + intros x [[= <-] | []]. auto.
    + intros ? ? [Hc | []]. discriminate Hc.
  - destruct (showQuickpick _ _) as [idx|e]; simpl.
    + destruct (idx <? 0)%Z; simpl.
      * split; [lia|]. split; [intros ? []|].
        intros ? ? [[= <- <-] | []]. split; [lia | reflexivity].
      * split; [lia|]. split.
        -- intros x [Hx | []]. apply nth_error_In in Hx. exact Hx.
        -- intros ? ? [[= <- <-] | [Hc | []]]; [|discriminate Hc].
           split; [lia | reflexivity].
    + split; [lia|]. split; [intros ? []|].
      intros ? ? [[= <- <-] | []]. split; [lia | reflexivity].
Qed.

(** X27. With two actions or more, what is applied follows the index the
    choice returns: nothing for a negative index, the action at that index
    when there is one, and for an index past the end [applyCodeAction] is
    still called, with an absent action. *)
Theorem execute_follows_choice
    (codeActions : list Proto.CodeAction) (idx : Z) :
  2 <= List.length codeActions ->
  showQuickpick (map Proto.description codeActions) "Select code action to apply"
  = Ok idx ->
  let applied := ApplyCommand.applied (fst (ApplyCommand.execute codeActions)) in
  ((idx < 0)%Z -> applied = [] /\ snd (ApplyCommand.execute codeActions) = Ok tt)
  /\ (forall a, (0 <= idx)%Z -> nth_error codeActions (Z.to_nat idx) = Some a ->
        applied = [Some a])
  /\ ((Z.of_nat (List.length codeActions) <= idx)%Z -> applied = [None]).
Proof.
  intros Hlen Hpick.
  destruct codeActions as [|a [|b rest]]; simpl in Hlen; try lia.
  unfold ApplyCommand.execute. rewrite Hpick.
  destruct (Z.ltb_spec idx 0) as [Hneg|Hpos]; simpl.
  - split; [auto|]. split; [intros; lia|]. intro Hge. simpl in Hge. lia.
  - split; [intro; lia|]. split.
    + intros x _ Hx. simpl in Hx. rewrite Hx. reflexivity.
    + intro Hge.
      assert (Hnone : nth_error (a :: b :: rest) (Z.to_nat idx) = None).
      { apply nth_error_None. simpl List.length in *. lia. }
      simpl in Hnone. rewrite Hnone. reflexivity.
Qed.

End ApplyCommandFacts.

(** Two actions and the choice of the second one. *)
Lemma execute_applies_at_most_one_witness :
  let calls :=
    fst (@ApplyCommand.execute (MoreFixtures.windowChoosing 1) MoreFixtures.applier
           MoreFixtures.sampleActions) in
  In (ApplyCommand.ShowQuickpick ["Import b"; "Sort"] "Select code action to apply") calls
  /\ In (Some (nth 1 MoreFixtures.sampleActions (MoreFixtures.action "" [] None)))
       (ApplyCommand.applied calls)
  /\ In (nth 1 MoreFixtures.sampleActions (MoreFixtures.action "" [] None))
       MoreFixtures.sampleActions
  /\ 2 <= List.length MoreFixtures.sampleActions.
Proof.
  intro calls.
  destruct (@execute_applies_at_most_one (MoreFixtures.windowChoosing 1)
              MoreFixtures.applier MoreFixtures.sampleActions) as (_ & Hmem & Hask).
  assert (Hshow : In (ApplyCommand.ShowQuickpick ["Import b"; "Sort"]
                        "Select code action to apply") calls)
    by (simpl; auto).
  assert (Happ : In (Some (nth 1 MoreFixtures.sampleActions (MoreFixtures.action "" [] None)))
                   (ApplyCommand.applied calls))
    by (simpl; auto).
  split; [exact Hshow|]. split; [exact Happ|].
  split; [exact (Hmem _ Happ) | exact (proj1 (Hask _ _ Hshow))].
Defined.

(** A choice past the end of the list, and a cancelled choice. *)
Lemma execute_follows_choice_witness :
  ApplyCommand.applied
    (fst (@ApplyCommand.execute (MoreFixtures.windowChoosing 7) MoreFixtures.applier
            MoreFixtures.sampleActions)) = [None]
  /\ ApplyCommand.applied
       (fst (@ApplyCommand.execute (MoreFixtures.windowChoosing (-1)) MoreFixtures.applier
               MoreFixtures.sampleActions)) = [].
Proof.
  split.
  - apply (@execute_follows_choice (MoreFixtures.windowChoosing 7) MoreFixtures.applier
             MoreFixtures.sampleActions 7%Z); [simpl; lia | reflexivity | simpl; lia].
  - apply (@execute_follows_choice (MoreFixtures.windowChoosing (-1)) MoreFixtures.applier
             MoreFixtures.sampleActions (-1)%Z); [simpl; lia | reflexivity | lia].
Defined.

(** ** Rejections, and what the filter leaves alone *)

Section ResolveRejections.
Context `{ITypeScriptServiceClient} `{Previewer} `{TypeConverters}
        `{CompletionItemUtils} {S : Type} `{SnippetString S}.
Variable currentLine : option string.

Lemma mapM_strip_throws_TypeError
    (filepath : string) (actions : list Proto.CodeAction) (e : JsError) :
  mapM (strip_action filepath) actions = Throw e -> e = TypeError.
Proof.
  induction actions as [|a rest IH]; simpl; [discriminate|].
  destruct (strip_action filepath a) as [y|e'] eqn:Ea; simpl.
  - destruct (mapM (strip_action filepath) rest) as [ys|e'']; simpl;
      [discriminate|]. intros [= <-]. apply IH. reflexivity.
  - intros [= <-]. apply (strip_action_throws filepath a Ea).
Qed.

Lemma getCodeActions_throws_TypeError
    (detail : Proto.CompletionEntryDetails) (filepath : string) (e : JsError) :
  getCodeActions detail filepath = Throw e -> e = TypeError.
Proof.
  unfold getCodeActions.
  destruct (Proto.codeActions detail) as [[|a rest]|]; try discriminate.
  destruct (fold_left (scan_action filepath) (a :: rest) ([], false)) as [edits flag].
  destruct flag; [|discriminate].
  destruct (mapM (strip_action filepath) (a :: rest)) as [p|e'] eqn:Em; simpl;
    [discriminate|].
  intros [= <-]. apply (mapM_strip_throws_TypeError filepath (a :: rest) Em).
Qed.

Lemma isValidFunctionCompletionContext_throws_TypeError
    (filepath : string) (position : Position) (e : JsError) :
  isValidFunctionCompletionContext currentLine filepath position = Throw e ->
  e = TypeError /\ currentLine = None.
Proof.
  unfold isValidFunctionCompletionContext.
  match goal with |- (if ?q then _ else _) = _ -> _ => destruct q end;
    [discriminate|].
  destruct currentLine; [discriminate|]. intros [= <-]. auto.
Qed.

(** X28. A resolution never rejects with a failure of the server: the
    detail request and the quickinfo request may fail in any way, and the
    only exception that can leave [resolveCompletionItem] is a TypeError of
    the provider's own code. *)
Theorem resolve_rejects_only_TypeError
    (item st : CompletionItem.t) (e : JsError) :
  resolveCompletionItem (S := S) currentLine (Some item) = Rejected e st ->
  e = TypeError.
Proof.
  unfold resolveCompletionItem.
  destruct (CompletionItem.data item) as [d|]; [|intros [= <- _]; reflexivity].
  destruct (toPath (uri d)) as [filepath|]; [|discriminate].
  destruct (String.eqb filepath ""); [discriminate|].
  destruct (execute_completionEntryDetails (detailsArgs filepath d))
    as [[[[|[detail|] rest]|] m| |]|e']; try discriminate.
  unfold enrich.
  destruct (getCodeActions detail filepath) as [actions|e'] eqn:Ha.
  2:{ intros [= <- _]. apply (getCodeActions_throws_TypeError detail filepath Ha). }
  cbv zeta.
  match goal with |- (if ?c then _ else _) = _ -> _ => destruct c end;
    [|discriminate].
  destruct (isValidFunctionCompletionContext currentLine filepath (position d))
    as [b|e'] eqn:Hv.
  - match goal with |- (if ?c then _ else _) = _ -> _ => destruct c end; discriminate.
  - intros [= <- _].
    apply (isValidFunctionCompletionContext_throws_TypeError filepath (position d) Hv).
Qed.

End ResolveRejections.

(** X29. The filter only ever drops entries of the four named kinds and
    entries that carry [hasAction]: any other entry passes whatever the
    configuration. *)
Theorem shouldExclude_only_named
    (element : Proto.CompletionEntry) (cfg : CompletionConfiguration.t) :
  shouldExcludeCompletionEntry element cfg = true ->
  In (Proto.kind element) ["warning"; "directory"; "script"; "external module name"]
  \/ Proto.hasAction element = Some true.
Proof.
  unfold shouldExcludeCompletionEntry, PConst.Kind.warning, PConst.Kind.directory,
    PConst.Kind.script, PConst.Kind.externalModuleName.
  intro Hex.
  repeat (apply orb_true_iff in Hex as [Hex | Hex]);
    apply andb_true_iff in Hex as [_ Hex].
  - apply String.eqb_eq in Hex. left. rewrite Hex. simpl. auto.
  - repeat (apply orb_true_iff in Hex as [Hex | Hex]);
      apply String.eqb_eq in Hex; left; rewrite Hex; simpl; auto.
  - right. destruct (Proto.hasAction element) as [[|]|]; auto; discriminate.
Qed.

(** A failing detail request is swallowed; a code action without
    [changes] makes the resolution reject, with a TypeError. *)
Lemma resolve_rejects_only_TypeError_witness :
  let item := ResolveExamples.itemFor "file:///a.ts" false in
  let broken := {| Proto.description := "Fix"; Proto.changes := None;
                   Proto.commands := Some ["organizeImports"] |} in
  let answer :=
    Ok (ServerResponse.Response (Some [Some (Fixtures.detailWith [broken])]) None) in
  ResolveExamples.resolveWith (Throw (Error "timeout")) (Some item)
  = Resolved (Some item)
  /\ exists e st,
       ResolveExamples.resolveWith answer (Some item) = Rejected e st
       /\ e = TypeError.
Proof.
  intros item broken answer. split; [reflexivity|].
  exists TypeError, item. split; [reflexivity|].
  apply (@resolve_rejects_only_TypeError (ResolveExamples.clientAnswering answer)
           Fixtures.previewer Fixtures.converters Fixtures.utils _
           Fixtures.snippets (Some "fs.") item item TypeError).
  reflexivity.
Defined.

(** With name suggestions off, the entry dropped is of kind "warning". *)
Lemma shouldExclude_only_named_witness :
  let cfg := @CompletionConfiguration.getConfigurationForResource
               (Fixtures.workspaceWithout "suggest.names") "typescript" "file:///a.ts" in
  let e := Fixtures.entry "foo" "warning" in
  shouldExcludeCompletionEntry e cfg = true
  /\ (In (Proto.kind e) ["warning"; "directory"; "script"; "external module name"]
      \/ Proto.hasAction e = Some true).
Proof.
  intros cfg e. split; [reflexivity|].
  apply (shouldExclude_only_named e cfg). reflexivity.
Defined.
